(** * sampctl: acquisition of the Pawn compiler package (compiler.go)

    A shallow embedding of [GetCompilerPackage], [GetCompilerPackageInfo],
    [CompilerFromCache] and [CompilerFromNet], together with the parts of
    the Go runtime they rely on:

    - [html/template] on the fragment the catalog uses (literal text and
      field actions), including the HTML escaping that package applies to
      every value it prints; and, for what the program does with a
      template that fails, the template library as a parameter
      ([Engine]);
    - Go memory: the three package-level descriptors and a heap of map
      objects, because a struct copy shares its [Paths] map;
    - the host: cache directory provider, file system, cache store,
      network fetcher and extraction strategies, as handlers that thread
      a host state; every call is recorded in a trace. *)

From Stdlib Require Import Ascii NArith Lia.
From stdpp Require Import base strings list gmap fin_maps.



(** ** Errors and results *)

(** [error] values as [github.com/pkg/errors] builds them: [Errorf] makes a
    leaf, [Wrap]/[Wrapf] put a message in front of a cause. *)
Inductive error : Type :=
| Errorf (msg : string)
| Wrap (cause : error) (msg : string).

(** [err.Error()] *)
Fixpoint Error (e : error) : string :=
  match e with
  | Errorf msg => msg
  | Wrap cause msg => msg +:+ ": " +:+ Error cause
  end.

(** How a Go call ends: it returns, it panics, or it left the modelled
    fragment of the template language (see [Parse]). *)
Inductive result (A : Type) : Type :=
| Done (a : A)
| Panic (v : error)
| Unmodelled.
Arguments Done {A} a.
Arguments Panic {A} v.
Arguments Unmodelled {A}.

(** ** Strings *)

(** [strings.HasPrefix(s, p)] *)
Fixpoint HasPrefix (s p : string) : bool :=
  match p, s with
  | "", _ => true
  | String a p', String b s' => if Ascii.eqb a b then HasPrefix s' p' else false
  | String _ _, "" => false
  end.

(** [strings.Count(s, pat)] for a non-empty pattern, counting every
    position at which [pat] starts. *)
Fixpoint occurrences (pat s : string) : nat :=
  match s with
  | "" => 0
  | String _ s' => (if HasPrefix s pat then 1 else 0) + occurrences pat s'
  end.

(** [strings.Replace(s, old, new, -1)] for a non-empty [old]: scan left to
    right, replacing each occurrence and resuming after it. The fuel is the
    number of bytes still to scan. *)
Fixpoint ReplaceAll_go (fuel : nat) (s old new : string) : string :=
  match fuel with
  | 0 => s
  | S fuel' =>
      match s with
      | "" => ""
      | String c s' =>
          if HasPrefix s old
          then new +:+ ReplaceAll_go fuel' (String.substring (String.length old) (String.length s) s) old new
          else String c (ReplaceAll_go fuel' s' old new)
      end
  end.

Definition ReplaceAll (s old new : string) : string :=
  ReplaceAll_go (String.length s) s old new.

(** ** html/template *)

(** The version placeholder of the catalog. *)
Definition placeholder : string := "{{.Version}}".

(** [htmlReplacementTable] of html/template (html.go): the replacement of
    a byte, [""] when it has none. Index 0 maps to U+FFFD in UTF-8. *)
Definition htmlReplacementTable (c : ascii) : string :=
  match N_of_ascii c with
  | 0%N => String (ascii_of_N 239) (String (ascii_of_N 191) (String (ascii_of_N 189) ""))
  | 34%N => "&#34;"
  | 38%N => "&amp;"
  | 39%N => "&#39;"
  | 43%N => "&#43;"
  | 60%N => "&lt;"
  | 62%N => "&gt;"
  | _ => ""
  end.

(** [htmlReplacer(s, htmlReplacementTable, true)]: every table entry sits
    below 0x80, so the rune loop acts byte by byte. *)
Fixpoint htmlReplacer (s : string) : string :=
  match s with
  | "" => ""
  | String c s' =>
      match htmlReplacementTable c with
      | "" => String c (htmlReplacer s')
      | repl => repl +:+ htmlReplacer s'
      end
  end.

(** [htmlEscaper]: the escaper html/template appends to an action that
    stands in HTML text, applied to a plain string value. *)
Definition htmlEscaper (s : string) : string := htmlReplacer s.

(** The error of a template that fails to parse or to execute. Its text is
    the library's (template name, line, the token or field at fault) and is
    not modelled: [templateError] stands for it, and no statement below
    depends on what it is. *)
Definition templateError : error := Errorf "template: error".

(** Parse tree of the fragment: literal text and [{{.Field}}] actions. *)
Inductive Node : Type :=
| TextNode (text : string)
| FieldNode (ident : string).

Inductive parsed : Type :=
| ParseOk (tree : list Node)
| ParseError (err : error)
| ParseUnmodelled.

Definition isAlpha (c : ascii) : bool :=
  let n := N_of_ascii c in
  ((65 <=? n) && (n <=? 90) || (97 <=? n) && (n <=? 122) || (n =? 95))%N.

Definition isAlphaNumeric (c : ascii) : bool :=
  let n := N_of_ascii c in
  (isAlpha c || (48 <=? n) && (n <=? 57))%N.

Fixpoint allAlphaNumeric (s : string) : bool :=
  match s with
  | "" => true
  | String c s' => isAlphaNumeric c && allAlphaNumeric s'
  end.

(** The body of an action, read as a field reference [.Ident]. *)
Definition fieldOf (body : string) : option string :=
  match body with
  | String "." (String c rest) =>
      if isAlpha c && allAlphaNumeric rest then Some (String c rest) else None
  | _ => None
  end.

Definition textNode (cur : string) (rest : parsed) : parsed :=
  match rest with
  | ParseOk tree => ParseOk (match cur with "" => tree | _ => TextNode cur :: tree end)
  | other => other
  end.

Definition actionNode (body : string) (rest : parsed) : parsed :=
  match rest with
  | ParseOk tree =>
      match fieldOf body with
      | Some ident => ParseOk (FieldNode ident :: tree)
      | None => ParseUnmodelled
      end
  | other => other
  end.

(** The lexer of text/template, in one pass: outside an action it collects
    text up to the left delimiter, inside it collects the body up to the
    right delimiter. Input that ends inside an action does not parse: no
    right delimiter closes the action, whichever token the library reports.
    An action whose body is not a single field reference is valid or
    invalid Go syntax that this model does not decide. *)
Fixpoint lex (inAction : bool) (cur : string) (s : string) : parsed :=
  match s with
  | "" =>
      if inAction then ParseError templateError
      else textNode cur (ParseOk [])
  | String c s' =>
      match s' with
      | String d rest =>
          if negb inAction && Ascii.eqb c "{" && Ascii.eqb d "{"
          then textNode cur (lex true "" rest)
          else if inAction && Ascii.eqb c "}" && Ascii.eqb d "}"
          then actionNode cur (lex false "" rest)
          else lex inAction (cur +:+ String c "") s'
      | "" => lex inAction (cur +:+ String c "") s'
      end
  end.

(** [template.New(name).Parse(text)] *)
Definition Parse (text : string) : parsed := lex false "" text.

(** html/template escapes by context. Text without ["<"] never leaves the
    HTML text context, where every action gets [htmlEscaper]. Text that
    opens a tag is outside the modelled fragment. *)
Definition staysInText (n : Node) : bool :=
  match n with
  | TextNode text => Nat.eqb (occurrences "<" text) 0
  | FieldNode _ => true
  end.

(** Evaluating one node against [struct{ Version string }{version}]: a
    field the struct does not have is an execution error. *)
Definition execNode (version : string) (n : Node) : error + string :=
  match n with
  | TextNode text => inr text
  | FieldNode ident =>
      if String.eqb ident "Version" then inr (htmlEscaper version)
      else inl templateError
  end.

Fixpoint execNodes (version : string) (tree : list Node) : error + string :=
  match tree with
  | [] => inr ""
  | n :: tree' =>
      match execNode version n with
      | inl e => inl e
      | inr out =>
          match execNodes version tree' with
          | inl e => inl e
          | inr outs => inr (out +:+ outs)
          end
      end
  end.

(** [template.Must(template.New(name).Parse(text))] followed by
    [err = tmpl.Execute(buf, struct{ Version string }{version})],
    [if err != nil { panic(err) }] and [buf.String()]: the three steps
    every template of [GetCompilerPackageInfo] goes through. *)
Definition mustRender (text version : string) : result string :=
  match Parse text with
  | ParseError e => Panic e
  | ParseUnmodelled => Unmodelled
  | ParseOk tree =>
      if forallb staysInText tree then
        match execNodes version tree with
        | inl e => Panic e
        | inr out => Done out
        end
      else Unmodelled
  end.

(** ** Go memory: package-level descriptors and map objects *)

(** [ExtractFunc]: the two extraction strategies the catalog names. *)
Inductive ExtractFunc : Type := Unzip | Untar.

Global Instance ExtractFunc_eq_dec : EqDecision ExtractFunc.
Proof. solve_decision. Defined.

(** Address of a map object. A [map[string]string] value is a reference:
    copying a struct copies the reference, not the entries. *)
Definition ref : Type := positive.

(** [CompilerPackage]; [None] is the nil func and the nil map of the zero
    value. *)
Record CompilerPackage : Type := {
  URL : string;
  Method : option ExtractFunc;
  Paths : option ref;
}.

Definition zeroPackage : CompilerPackage :=
  {| URL := ""; Method := None; Paths := None |}.

Record Memory : Type := {
  pawnMacOS : CompilerPackage;
  pawnLinux : CompilerPackage;
  pawnWin32 : CompilerPackage;
  maps : gmap ref (gmap string string);
}.

(** Memory after package initialisation: lines 22-47. *)
Definition initMemory : Memory := {|
  pawnMacOS := {|
    URL := "https://github.com/Zeex/pawn/releases/download/v{{.Version}}/pawnc-{{.Version}}-darwin.zip";
    Method := Some Unzip;
    Paths := Some 1%positive |};
  pawnLinux := {|
    URL := "https://github.com/Zeex/pawn/releases/download/v{{.Version}}/pawnc-{{.Version}}-linux.tar.gz";
    Method := Some Untar;
    Paths := Some 2%positive |};
  pawnWin32 := {|
    URL := "https://github.com/Zeex/pawn/releases/download/v{{.Version}}/pawnc-{{.Version}}-windows.zip";
    Method := Some Unzip;
    Paths := Some 3%positive |};
  maps :=
    <[1%positive := <["pawnc-{{.Version}}-darwin/bin/pawncc" := "pawncc"]>
                    (<["pawnc-{{.Version}}-darwin/lib/libpawnc.dylib" := "libpawnc.dylib"]> ∅)]>
    (<[2%positive := <["pawnc-{{.Version}}-linux/bin/pawncc" := "pawncc"]>
                     (<["pawnc-{{.Version}}-linux/lib/libpawnc.so" := "libpawnc.so"]> ∅)]>
    (<[3%positive := <["pawnc-{{.Version}}-windows/bin/pawncc.exe" := "pawncc.exe"]>
                     (<["pawnc-{{.Version}}-windows/bin/pawnc.dll" := "pawnc.dll"]> ∅)]> ∅))
|}.

(** The entries a map value denotes; ranging over a nil map sees none. *)
Definition entries (m : Memory) (p : option ref) : gmap string string :=
  match p with
  | Some r => default ∅ (maps m !! r)
  | None => ∅
  end.

(** The chain of comparisons of lines 76-85: the package-level variable
    copied into [pkg], [None] for the final [else]. *)
Definition selectPackage (m : Memory) (os : string) : option CompilerPackage :=
  if String.eqb os "windows" then Some (pawnWin32 m)
  else if String.eqb os "linux" then Some (pawnLinux m)
  else if String.eqb os "darwin" then Some (pawnMacOS m)
  else None.

(** ** The host *)

(** Everything [compiler.go] calls but does not define. [GOOS] is
    [runtime.GOOS]; [url_Path] is [url.Parse(rawurl)] followed by [u.Path];
    the remaining handlers act on the host state [world] (file system,
    network). Go's multiple results are tuples. *)
Record Host : Type := {
  world : Type;
  GOOS : string;
  url_Path : string → error + string;
  filepath_Base : string → string;
  GetCacheDir : world → (string * option error) * world;
  exists_ : string → world → bool;
  MkdirAll : string → world → option error * world;
  FromCache : string → string → string → option ExtractFunc →
              gmap string string → world → (bool * option error) * world;
  FromNet : string → string → string → world → (string * option error) * world;
  extract : ExtractFunc → string → string → gmap string string →
            world → option error * world;
}.

(** One entry of the trace: a call that left the process, its arguments
    and what it answered. *)
Inductive event : Type :=
| EvPrintf (text : string)
| EvPrintln (paths : gmap string string)
| EvGetCacheDir (cacheDir : string) (err : option error)
| EvExists (path : string) (found : bool)
| EvMkdirAll (path : string) (err : option error)
| EvFromCache (cacheDir filename dir : string) (method : option ExtractFunc)
    (paths : gmap string string) (hit : bool) (err : option error)
| EvFromNet (url cacheDir filename : string) (path : string) (err : option error)
| EvExtract (method : ExtractFunc) (path dir : string)
    (paths : gmap string string) (err : option error).

Definition isNetwork (ev : event) : bool :=
  match ev with
  | EvFromNet _ _ _ _ _ => true
  | _ => false
  end.

Definition isExtract (ev : event) : bool :=
  match ev with
  | EvExtract _ _ _ _ _ => true
  | _ => false
  end.

Definition isCacheLookup (ev : event) : bool :=
  match ev with
  | EvFromCache _ _ _ _ _ _ _ => true
  | _ => false
  end.

(** [ensures path ev]: the event establishes that directory [path]
    exists, by finding it or by creating it. *)
Definition ensures (path : string) (ev : event) : bool :=
  match ev with
  | EvExists p true => bool_decide (p = path)
  | EvMkdirAll p None => bool_decide (p = path)
  | _ => false
  end.

(** [touches path ev]: the event checks or creates directory [path]. *)
Definition touches (path : string) (ev : event) : bool :=
  match ev with
  | EvExists p _ => bool_decide (p = path)
  | EvMkdirAll p _ => bool_decide (p = path)
  | _ => false
  end.

(** The line [GetCompilerPackage] prints first. *)
Definition banner : string := "Downloading compiler package
".

Section Program.
Context (H : Host).

Record State : Type := { mem : Memory; host : world H }.

(** A Go computation: from a state to how it ends, the state it leaves
    and the calls it made, in order. *)
Definition Go (A : Type) : Type := State → result A * State * list event.

Definition go_ret {A} (a : A) : Go A := λ s, (Done a, s, []).

Definition go_bind {A B} (k : A → Go B) (c : Go A) : Go B := λ s,
  match c s with
  | (Done a, s1, evs1) =>
      let '(r, s2, evs2) := k a s1 in (r, s2, evs1 ++ evs2)
  | (Panic v, s1, evs1) => (Panic v, s1, evs1)
  | (Unmodelled, s1, evs1) => (Unmodelled, s1, evs1)
  end.

#[local] Instance Go_ret : MRet Go := @go_ret.
#[local] Instance Go_bind : MBind Go := @go_bind.

Definition lift {A} (r : result A) : Go A := λ s, (r, s, []).

Definition emit (ev : event) : Go () := λ s, (Done (), s, [ev]).

Definition getMemory : Go Memory := λ s, (Done (mem s), s, []).

(** [make(map[string]string)]: a fresh, empty map object. *)
Definition make_map : Go ref := λ s,
  let r := fresh (dom (maps (mem s))) in
  (Done r,
   {| mem := {| pawnMacOS := pawnMacOS (mem s); pawnLinux := pawnLinux (mem s);
                pawnWin32 := pawnWin32 (mem s);
                maps := <[r := ∅]> (maps (mem s)) |};
      host := host s |}, []).

(** [m[key] = value] on the map object at [r]. *)
Definition map_assign (r : ref) (key value : string) : Go () := λ s,
  (Done (),
   {| mem := {| pawnMacOS := pawnMacOS (mem s); pawnLinux := pawnLinux (mem s);
                pawnWin32 := pawnWin32 (mem s);
                maps := <[r := <[key := value]> (default ∅ (maps (mem s) !! r))]>
                          (maps (mem s)) |};
      host := host s |}, []).

(** A host call that changes the host state. *)
Definition call {A} (f : world H → A * world H) (ev : A → event) : Go A := λ s,
  let '(a, w) := f (host s) in
  (Done a, {| mem := mem s; host := w |}, [ev a]).

(** One iteration of the range loop, lines 96-112, run after the
    iterations [rest] that came before it. *)
Definition rangeBody (version : string) (newPaths : ref)
    (source target : string) (rest : Go ()) : Go () :=
  rest ;;
  sourceOut ← lift (mustRender source version);
  targetOut ← lift (mustRender target version);
  map_assign newPaths sourceOut targetOut.

(** The range loop over the entries [l], in the order the fold of the
    map visits them. *)
Definition loop (version : string) (newPaths : ref)
    (l : list (string * string)) : Go () :=
  foldr (uncurry (rangeBody version newPaths)) (mret ()) l.

(** [GetCompilerPackageInfo], lines 75-122. The error of the last branch
    formats [runtime.GOOS]. The range loop visits the entries the map has
    when the loop starts, in an order Go leaves open. *)
Definition GetCompilerPackageInfo (os version : string)
  : Go (CompilerPackage * string * option error) :=
  m ← getMemory;
  match selectPackage m os with
  | None => mret (zeroPackage, "", Some (Errorf ("unsupported OS " +:+ GOOS H)))
  | Some pkg =>
      url ← lift (mustRender (URL pkg) version);
      newPaths ← make_map;
      map_fold (rangeBody version newPaths) (mret ()) (entries m (Paths pkg)) ;;
      let pkg' := {| URL := url; Method := Method pkg; Paths := Some newPaths |} in
      match url_Path H url with
      | inl e => mret (pkg', "", Some e)
      | inr path => mret (pkg', filepath_Base H path, None)
      end
  end.

(** [CompilerFromCache], lines 125-137. *)
Definition CompilerFromCache (cacheDir version dir : string)
  : Go (bool * option error) :=
  '(pkg, filename, err) ← GetCompilerPackageInfo (GOOS H) version;
  match err with
  | Some e => mret (false, Some e)
  | None =>
      m ← getMemory;
      let paths := entries m (Paths pkg) in
      '(hit, err) ← call (FromCache H cacheDir filename dir (Method pkg) paths)
                         (λ r, EvFromCache cacheDir filename dir (Method pkg) paths r.1 r.2);
      if negb hit then mret (false, None) else mret (hit, err)
  end.

(** [if !exists(path) { err := os.MkdirAll(path, 0755) ... }]: the error
    of the creation, [None] when the directory was there. *)
Definition ensureDir (path : string) : Go (option error) :=
  found ← (λ s, (Done (exists_ H path (host s)), s, [EvExists path (exists_ H path (host s))]));
  if negb found then call (MkdirAll H path) (EvMkdirAll path) else mret None.

(** [pkg.Method(path, dir, pkg.Paths)]; calling a nil func panics. *)
Definition callMethod (method : option ExtractFunc) (path dir : string)
    (paths : gmap string string) : Go (option error) :=
  match method with
  | Some f => call (extract H f path dir paths) (EvExtract f path dir paths)
  | None => lift (Panic (Errorf "runtime error: invalid memory address or nil pointer dereference"))
  end.

(** [CompilerFromNet], lines 140-172. *)
Definition CompilerFromNet (cacheDir version dir : string) : Go (option error) :=
  '(pkg, filename, err) ← GetCompilerPackageInfo (GOOS H) version;
  match err with
  | Some e => mret (Some (Wrap e "package info mismatch"))
  | None =>
      m ← getMemory;
      let paths := entries m (Paths pkg) in
      emit (EvPrintln paths) ;;
      err ← ensureDir dir;
      match err with
      | Some e => mret (Some (Wrap e ("failed to create dir " +:+ dir)))
      | None =>
          err ← ensureDir cacheDir;
          match err with
          | Some e => mret (Some (Wrap e ("failed to create cache " +:+ cacheDir)))
          | None =>
              '(path, err) ← call (FromNet H (URL pkg) cacheDir filename)
                                  (λ r, EvFromNet (URL pkg) cacheDir filename r.1 r.2);
              match err with
              | Some e => mret (Some (Wrap e "failed to download package"))
              | None =>
                  err ← callMethod (Method pkg) path dir paths;
                  match err with
                  | Some e => mret (Some (Wrap e ("failed to unzip package " +:+ path)))
                  | None => mret None
                  end
              end
          end
      end
  end.

(** [GetCompilerPackage], lines 50-72. *)
Definition GetCompilerPackage (version dir : string) : Go (option error) :=
  emit (EvPrintf banner) ;;
  '(cacheDir, err) ← call (GetCacheDir H) (λ r, EvGetCacheDir r.1 r.2);
  match err with
  | Some e => mret (Some e)
  | None =>
      '(hit, err) ← CompilerFromCache cacheDir version dir;
      match err with
      | Some e => mret (Some (Wrap e ("failed to get package " +:+ version +:+ " from cache")))
      | None =>
          if (hit : bool) then mret None
          else
            err ← CompilerFromNet cacheDir version dir;
            match err with
            | Some e => mret (Some (Wrap e ("failed to get package " +:+ version +:+ " from net")))
            | None => mret None
            end
      end
  end.

End Program.

Arguments mem {H} _.
Arguments host {H} _.

(** ** The template library as a parameter

    [html/template] is not part of the repository. [Engine] is what lines
    87-108 call of it: [template.New(name).Parse(text)], which returns a
    template or an error, and [tmpl.Execute(buf, struct{ Version string
    }{version})] followed by [buf.String()], which returns an error or the
    text written. *)
Record Engine : Type := {
  Template : Type;
  template_Parse : string → string → error + Template;
  template_Execute : Template → string → error + string;
}.

Module Library.

(** The three steps every template of [GetCompilerPackageInfo] goes
    through, over a library [E]: [template.Must] panics with the error of
    [Parse], [panic(err)] with the error of [Execute]. *)
Definition mustRender (E : Engine) (name text version : string) : result string :=
  match template_Parse E name text with
  | inl e => Panic e
  | inr tmpl =>
      match template_Execute E tmpl version with
      | inl e => Panic e
      | inr out => Done out
      end
  end.

Section Render.
Context (H : Host) (render : string → string → string → result string).

#[local] Existing Instances Go_ret Go_bind.

(** One iteration of the range loop, lines 96-112; both templates are
    named [tmp2]. *)
Definition rangeBody (version : string) (newPaths : ref)
    (source target : string) (rest : Go H ()) : Go H () :=
  rest ;;
  sourceOut ← lift H (render "tmp2" source version);
  targetOut ← lift H (render "tmp2" target version);
  map_assign H newPaths sourceOut targetOut.

Definition loop (version : string) (newPaths : ref)
    (l : list (string * string)) : Go H () :=
  foldr (uncurry (rangeBody version newPaths)) (mret ()) l.

(** [GetCompilerPackageInfo], lines 75-122, with the outcome of the
    template steps left to [render]; the locator template is named
    [tmp1]. *)
Definition GetCompilerPackageInfo (os version : string)
  : Go H (CompilerPackage * string * option error) :=
  m ← getMemory H;
  match selectPackage m os with
  | None => mret (zeroPackage, "", Some (Errorf ("unsupported OS " +:+ GOOS H)))
  | Some pkg =>
      url ← lift H (render "tmp1" (URL pkg) version);
      newPaths ← make_map H;
      map_fold (rangeBody version newPaths) (mret ()) (entries m (Paths pkg)) ;;
      let pkg' := {| URL := url; Method := Method pkg; Paths := Some newPaths |} in
      match url_Path H url with
      | inl e => mret (pkg', "", Some e)
      | inr path => mret (pkg', filepath_Base H path, None)
      end
  end.

End Render.

(** A template library that accepts the fragment of [Parse] and rejects
    every other text. *)
Definition fragment : Engine := {|
  Template := list Node;
  template_Parse := λ name text,
    match Parse text with
    | ParseOk tree =>
        if forallb staysInText tree then inr tree
        else inl templateError
    | ParseError e => inl e
    | ParseUnmodelled => inl templateError
    end;
  template_Execute := λ tree version, execNodes version tree;
|}.

End Library.

(** ** A simulated host

    A small file system (the set of paths that exist) behind the host
    interface, used to run the program on concrete inputs. *)

Module Sim.

(** The path part of an absolute URL: after [scheme://host], up to the
    first [?] or [#]. *)
Fixpoint untilQuery (s : string) : string :=
  match s with
  | "" => ""
  | String c s' =>
      if Ascii.eqb c "?" || Ascii.eqb c "#" then "" else String c (untilQuery s')
  end.

Fixpoint fromSlash (s : string) : string :=
  match s with
  | "" => ""
  | String c s' => if Ascii.eqb c "/" then s else fromSlash s'
  end.

Fixpoint afterScheme (s : string) : string :=
  match s with
  | "" => ""
  | String c s' => if HasPrefix s "://" then String.substring 3 (String.length s) s else afterScheme s'
  end.

Definition urlPath (rawurl : string) : error + string :=
  inr (untilQuery (fromSlash (afterScheme rawurl))).

(** The last element of a slash-separated path. *)
Fixpoint lastElem (cur s : string) : string :=
  match s with
  | "" => cur
  | String c s' => if Ascii.eqb c "/" then lastElem "" s' else lastElem (cur +:+ String c "") s'
  end.

Definition base (path : string) : string := lastElem "" path.

Definition Join (dir name : string) : string := dir +:+ "/" +:+ name.

(** [cacheReply present]: what the cache store answers, given whether
    the file is in the cache. [fetchErr]: the error of every download. *)
Definition machine (goos : string) (cacheReply : bool → bool * option error)
    (fetchErr : option error) : Host := {|
  world := gset string;
  GOOS := goos;
  url_Path := urlPath;
  filepath_Base := base;
  GetCacheDir := λ w, (("/home/user/.samp", None), w);
  exists_ := λ path w, bool_decide (path ∈ w);
  MkdirAll := λ path w, (None, {[path]} ∪ w);
  FromCache := λ cacheDir filename dir method paths w,
    (cacheReply (bool_decide (Join cacheDir filename ∈ w)), w);
  FromNet := λ url cacheDir filename w,
    match fetchErr with
    | Some e => (("", Some e), w)
    | None => ((Join cacheDir filename, None), {[Join cacheDir filename]} ∪ w)
    end;
  extract := λ method path dir paths w, (None, w);
|}.

(** A cache store that hits exactly when the file is there. *)
Definition honest (present : bool) : bool * option error := (present, None).

Definition boot (H : Host) (m : Memory) (w : world H) : State H :=
  {| mem := m; host := w |}.

Definition start (H : Host) (w : world H) : State H := boot H initMemory w.

(** A catalog whose Linux locator template lost its closing delimiter. *)
Definition unclosedMemory : Memory := {|
  pawnMacOS := pawnMacOS initMemory;
  pawnLinux := {|
    URL := "https://github.com/Zeex/pawn/releases/download/v{{.Version}}/pawnc-{{.Version-linux.tar.gz";
    Method := Some Untar;
    Paths := Some 2%positive |};
  pawnWin32 := pawnWin32 initMemory;
  maps := maps initMemory
|}.

(** The three machines the examples run on. *)
Definition linux : Host := machine "linux" honest None.
Definition offline : Host := machine "linux" honest (Some (Errorf "dial tcp: network is unreachable")).
Definition corrupt : Host :=
  machine "linux" (λ _, (false, Some (Errorf "zip: not a valid zip file"))) None.
Definition hitWithError : Host :=
  machine "linux" (λ _, (true, Some (Errorf "chmod: operation not permitted"))) None.
Definition freebsd : Host := machine "freebsd" honest None.

Definition cacheDir : string := "/home/user/.samp".
Definition cached : string := "/home/user/.samp/pawnc-3.10.4-linux.tar.gz".

(** Two disks: an empty one, and one whose cache holds the 3.10.4
    archive for Linux while the install directory does not exist. *)
Definition emptyDisk : gset string := ∅.
Definition warmDisk : gset string := {[cacheDir; cached]}.

End Sim.

(** ** Specification vocabulary *)

(** [mentions c p]: byte [c] occurs in [p]. *)
Fixpoint mentions (c : ascii) (p : string) : bool :=
  match p with
  | "" => false
  | String a p' => Ascii.eqb a c || mentions c p'
  end.

(** [avoids p chars]: no byte of [chars] occurs in [p]. *)
Fixpoint avoids (p chars : string) : bool :=
  match chars with
  | "" => true
  | String c chars' => negb (mentions c p) && avoids p chars'
  end.

(** A pattern the HTML escaper can neither destroy nor create: it
    mentions no escaped byte and no byte of a replacement. *)
Definition inert (p : string) : Prop :=
  ∀ c, htmlReplacementTable c ≠ "" →
       mentions c p = false ∧ avoids p (htmlReplacementTable c) = true.

(** The spec's [resolve(template, version)]: every occurrence of the
    version placeholder literally replaced by the version string. *)
Definition resolve (template version : string) : string :=
  ReplaceAll template placeholder version.

(** [resolve] applied to every key and every value of a path map. *)
Definition resolvePaths (paths : gmap string string) (version : string)
  : gmap string string :=
  list_to_map ((λ kv, (resolve kv.1 version, resolve kv.2 version)) <$> map_to_list paths).

(** The platform identifiers of the catalog. *)
Definition supported (os : string) : Prop :=
  os = "windows" ∨ os = "linux" ∨ os = "darwin".

(** The templates of one descriptor: its locator template, then every
    key and every value of its path map. *)
Definition descriptorTemplates (m : Memory) (pkg : CompilerPackage) : list string :=
  URL pkg :: flat_map (λ kv, [kv.1; kv.2]) (map_to_list (entries m (Paths pkg))).

(** Every template of the platform catalog. *)
Definition catalogTemplates (m : Memory) : list string :=
  flat_map (descriptorTemplates m) [pawnMacOS m; pawnLinux m; pawnWin32 m].

(** Placeholder syntax: the placeholder itself and the two delimiters. *)
Definition placeholderSyntax : list string := [placeholder; "{{"; "}}"].

(** A template renders when the three steps give its output. *)
Definition renders (version t : string) : Prop :=
  ∃ out, mustRender t version = Done out.

(** The templates of a descriptor under the names lines 87, 97 and 104
    give them. *)
Definition namedTemplates (m : Memory) (pkg : CompilerPackage) : list (string * string) :=
  ("tmp1", URL pkg) ::
  flat_map (λ kv, [("tmp2", kv.1); ("tmp2", kv.2)]) (map_to_list (entries m (Paths pkg))).

(** [fails E version t e]: template [t] fails with error [e], because it
    does not parse or because it parses and does not execute. *)
Definition fails (E : Engine) (version : string) (t : string * string) (e : error) : Prop :=
  template_Parse E t.1 t.2 = inl e ∨
  ∃ tmpl, template_Parse E t.1 t.2 = inr tmpl ∧ template_Execute E tmpl version = inl e.

(** [succeeds E version t]: template [t] parses and executes. *)
Definition succeeds (E : Engine) (version : string) (t : string * string) : Prop :=
  ∃ tmpl out, template_Parse E t.1 t.2 = inr tmpl ∧ template_Execute E tmpl version = inr out.

(** The output of both templates of a path-map entry. *)
Definition rendered (version : string) (kv : string * string) : string * string :=
  (match mustRender kv.1 version with Done out => out | _ => "" end,
   match mustRender kv.2 version with Done out => out | _ => "" end).

(** What the program can observe of a catalog entry: the struct and the
    entries of the map object it refers to. *)
Definition entryView (m : Memory) (pkg : CompilerPackage)
  : CompilerPackage * gmap string string :=
  (pkg, entries m (Paths pkg)).

Definition catalogView (m : Memory) : list (CompilerPackage * gmap string string) :=
  [entryView m (pawnMacOS m); entryView m (pawnLinux m); entryView m (pawnWin32 m)].

(** The map of a package is a live object (or nil). *)
Definition allocated (m : Memory) (pkg : CompilerPackage) : Prop :=
  ∀ r, Paths pkg = Some r → is_Some (maps m !! r).

(** Every map the catalog refers to is a live object. *)
Definition catalogAllocated (m : Memory) : Prop :=
  allocated m (pawnMacOS m) ∧ allocated m (pawnLinux m) ∧ allocated m (pawnWin32 m).

(** The catalog is as package initialisation left it. *)
Definition catalogIntact (m : Memory) : Prop :=
  catalogAllocated m ∧ catalogView m = catalogView initMemory.

(** [framed r s s']: from [s] to [s'] the host, the package-level
    variables and every map object other than [r] stayed as they were. *)
Definition framed {H : Host} (r : ref) (s s' : State H) : Prop :=
  host s' = host s ∧
  pawnMacOS (mem s') = pawnMacOS (mem s) ∧
  pawnLinux (mem s') = pawnLinux (mem s) ∧
  pawnWin32 (mem s') = pawnWin32 (mem s) ∧
  ∀ r', r' ≠ r → maps (mem s') !! r' = maps (mem s) !! r'.

(** [before P Q evs]: in the trace [evs], every event satisfying [Q] has
    an event satisfying [P] somewhere in front of it. *)
Definition before (P Q : event → bool) (evs : list event) : Prop :=
  ∀ pre ev post, evs = pre ++ ev :: post → Q ev = true →
    ∃ ev', ev' ∈ pre ∧ P ev' = true.

(** [before] as a scan of the trace: fail at an event satisfying [Q],
    succeed at the first event satisfying [P]. *)
Fixpoint beforeb (P Q : event → bool) (evs : list event) : bool :=
  match evs with
  | [] => true
  | ev :: rest => if Q ev then false else if P ev then true else beforeb P Q rest
  end.

(** What [GetCompilerPackage] makes of the way the network stage ends. *)
Definition fromNet (version : string) (r : result (option error))
  : result (option error) :=
  match r with
  | Done (Some e) => Done (Some (Wrap e ("failed to get package " +:+ version +:+ " from net")))
  | other => other
  end.

(** ** Further vocabulary *)

(** A string the HTML escaper leaves alone: none of its bytes has a
    replacement. *)
Fixpoint htmlSafe (s : string) : bool :=
  match s with
  | "" => true
  | String c s' =>
      match htmlReplacementTable c with
      | "" => htmlSafe s'
      | _ => false
      end
  end.




(** The five steps of the network stage that can fail, by the message
    [CompilerFromNet] wraps their error in. *)
Definition netSteps (cacheDir dir : string) (msg : string) : Prop :=
  msg = "package info mismatch" ∨
  msg = "failed to create dir " +:+ dir ∨
  msg = "failed to create cache " +:+ cacheDir ∨
  msg = "failed to download package" ∨
  ∃ path, msg = "failed to unzip package " +:+ path.

(** A cache lookup that hit without an error, and an extraction that
    succeeded. *)
Definition isCleanHit (ev : event) : bool :=
  match ev with
  | EvFromCache _ _ _ _ _ true None => true
  | _ => false
  end.

Definition isCleanExtract (ev : event) : bool :=
  match ev with
  | EvExtract _ _ _ _ None => true
  | _ => false
  end.

(** A host whose [url.Parse] rejects control bytes, as Go's does
    ([invalid control character in URL]). *)
Module Strict.

Fixpoint hasControl (s : string) : bool :=
  match s with
  | "" => false
  | String c s' =>
      let n := N_of_ascii c in
      ((n <? 32) || (n =? 127))%N || hasControl s'
  end.

Definition urlPath (rawurl : string) : error + string :=
  if hasControl rawurl
  then inl (Errorf "net/url: invalid control character in URL")
  else Sim.urlPath rawurl.

Definition machine (goos : string) : Host := {|
  world := gset string;
  GOOS := goos;
  url_Path := urlPath;
  filepath_Base := Sim.base;
  GetCacheDir := λ w, ((Sim.cacheDir, None), w);
  exists_ := λ path w, bool_decide (path ∈ w);
  MkdirAll := λ path w, (None, {[path]} ∪ w);
  FromCache := λ cacheDir filename dir method paths w,
    (Sim.honest (bool_decide (Sim.Join cacheDir filename ∈ w)), w);
  FromNet := λ url cacheDir filename w,
    ((Sim.Join cacheDir filename, None), {[Sim.Join cacheDir filename]} ∪ w);
  extract := λ method path dir paths w, (None, w);
|}.

(** A version read from a file, with its line feed still attached. *)
Definition versionWithNewline : string := "3.10.4
".

(** A host on which no directory can be created and one on which every
    extraction fails. *)
Definition readOnly : Host := {|
  world := gset string;
  GOOS := "linux";
  url_Path := Sim.urlPath;
  filepath_Base := Sim.base;
  GetCacheDir := λ w, ((Sim.cacheDir, None), w);
  exists_ := λ path w, bool_decide (path ∈ w);
  MkdirAll := λ path w, (Some (Errorf "mkdir: read-only file system"), w);
  FromCache := λ cacheDir filename dir method paths w,
    (Sim.honest (bool_decide (Sim.Join cacheDir filename ∈ w)), w);
  FromNet := λ url cacheDir filename w,
    ((Sim.Join cacheDir filename, None), {[Sim.Join cacheDir filename]} ∪ w);
  extract := λ method path dir paths w, (None, w);
|}.

Definition badArchive : Host := {|
  world := gset string;
  GOOS := "linux";
  url_Path := Sim.urlPath;
  filepath_Base := Sim.base;
  GetCacheDir := λ w, ((Sim.cacheDir, None), w);
  exists_ := λ path w, bool_decide (path ∈ w);
  MkdirAll := λ path w, (None, {[path]} ∪ w);
  FromCache := λ cacheDir filename dir method paths w,
    (Sim.honest (bool_decide (Sim.Join cacheDir filename ∈ w)), w);
  FromNet := λ url cacheDir filename w,
    ((Sim.Join cacheDir filename, None), {[Sim.Join cacheDir filename]} ∪ w);
  extract := λ method path dir paths w,
    (Some (Errorf "gzip: invalid header"), w);
|}.

(** A host whose cache directory provider fails. *)
Definition homeless : Host := {|
  world := gset string;
  GOOS := "linux";
  url_Path := Sim.urlPath;
  filepath_Base := Sim.base;
  GetCacheDir := λ w, (("", Some (Errorf "user: Current not implemented")), w);
  exists_ := λ path w, bool_decide (path ∈ w);
  MkdirAll := λ path w, (None, {[path]} ∪ w);
  FromCache := λ cacheDir filename dir method paths w,
    (Sim.honest (bool_decide (Sim.Join cacheDir filename ∈ w)), w);
  FromNet := λ url cacheDir filename w,
    ((Sim.Join cacheDir filename, None), {[Sim.Join cacheDir filename]} ∪ w);
  extract := λ method path dir paths w, (None, w);
|}.

End Strict.

(** * Project initialisation (package rook)

    The second file of the source: the parts of [Init] that compute (the
    walk function, the choice of the entry question, the package
    description) and [getTemplateFile], with its deferred calls. The
    prompts of [survey], [WriteDefinition], [EnsureDependencies] and the
    goroutines that run [getTemplateFile] are not modelled. *)

Module Rook.

Fixpoint hasSlash (s : string) : bool :=
  match s with
  | "" => false
  | String c s' => Ascii.eqb c "/" || hasSlash s'
  end.

(** [filepath.Ext(path)]: the suffix that starts at the last dot of the
    last element of [path], [""] when that element has no dot. *)
Fixpoint Ext (path : string) : string :=
  match path with
  | "" => ""
  | String c rest =>
      match Ext rest with
      | "" => if Ascii.eqb c "." && negb (hasSlash rest) then path else ""
      | ext => ext
      end
  end.

(** [strings.HasSuffix(s, suffix)] *)
Fixpoint HasSuffix (s suffix : string) : bool :=
  String.eqb s suffix ||
  match s with
  | "" => false
  | String _ s' => HasSuffix s' suffix
  end.

(** [strings.TrimSuffix(s, suffix)] *)
Definition TrimSuffix (s suffix : string) : string :=
  if HasSuffix s suffix
  then String.substring 0 (String.length s - String.length suffix) s
  else s.

(** The walk function of lines 207-225, applied to one entry. [info] is
    [info.IsDir()], [None] for a nil [os.FileInfo]; [rel] is
    [filepath.Rel]. The result is [innerErr] and the two lists. *)
Definition visit (rel : string → string → error + string) (dir path : string)
    (info : option bool) (files : list string * list string)
  : result (option error * (list string * list string)) :=
  match info with
  | None => Panic (Errorf "runtime error: invalid memory address or nil pointer dereference")
  | Some true => Done (None, files)
  | Some false =>
      let ext := Ext path in
      match rel dir path with
      | inl e => Done (Some e, files)
      | inr r =>
          if String.eqb ext ".pwn" then Done (None, (files.1 ++ [r], files.2))
          else if String.eqb ext ".inc" then Done (None, (files.1, files.2 ++ [r]))
          else Done (None, files)
      end
  end.

(** [filepath.Walk] over the entries it finds, in its order: it stops at
    the first error the walk function returns. *)
Fixpoint Walk (rel : string → string → error + string) (dir : string)
    (found : list (string * option bool)) (files : list string * list string)
  : result (option error * (list string * list string)) :=
  match found with
  | [] => Done (None, files)
  | (path, info) :: rest =>
      match visit rel dir path info files with
      | Done (None, files') => Walk rel dir rest files'
      | other => other
      end
  end.

(** The prompts [Init] uses for the entry point. *)
Inductive Prompt : Type :=
| Select (options : list string)
| MultiSelect (options : list string)
| Input (default : string).

Record Question : Type := {
  Name : string;
  Ask : Prompt;
  Required : bool;
}.

(** The question lines 278-306 append to the seven fixed ones. *)
Definition entryQuestion (pwnFiles incFiles : list string) : Question :=
  if 0 <? length pwnFiles
  then {| Name := "Entry"; Ask := Select pwnFiles; Required := true |}
  else if 0 <? length incFiles
  then {| Name := "EntryGenerate"; Ask := MultiSelect incFiles; Required := true |}
  else {| Name := "Entry"; Ask := Input "test.pwn"; Required := false |}.

(** The answers struct of lines 308-318. *)
Record Answers : Type := {
  Format : string;
  User : string;
  Repo : string;
  GitIgnore : bool;
  Readme : bool;
  Editor : string;
  StdLib : bool;
  EntryGenerate : list string;
  Entry : string;
}.

(** The fields of [types.Package] that [Init] sets. *)
Record Package : Type := {
  Parent : bool;
  Local : string;
  PkgFormat : string;
  PkgUser : string;
  PkgRepo : string;
  PkgEntry : string;
  PkgOutput : string;
  Dependencies : list string;
}.

Definition quote : string := String (ascii_of_N 34) "".
Definition newline : string := String (ascii_of_N 10) "".
Definition tab : string := String (ascii_of_N 9) "".

(** The test script of lines 348-357; [base] is [filepath.Base]. *)
Definition generated (base : string → string) (incs : list string) : string :=
  "// generated by " +:+ quote +:+ "sampctl package generate" +:+ quote +:+
  newline +:+ newline +:+
  foldr (λ inc rest, "#include " +:+ quote +:+ base inc +:+ quote +:+ newline +:+ rest)
        "" incs +:+
  newline +:+ "main() {" +:+ newline +:+
  tab +:+ "// write tests for libraries here and run " +:+ quote +:+
  "sampctl package run" +:+ quote +:+
  newline +:+ "}" +:+ newline.

(** What lines 325-365 and 394-396 make of the answers: the package, whether
    the three warnings about the entry point are printed, and the script to
    write to [test.pwn], if any. *)
Definition describe (base : string → string) (dir : string) (a : Answers)
  : Package * bool * option string :=
  let deps := if StdLib a then ["sampctl/samp-stdlib"] else [] in
  if negb (String.eqb (Entry a) "") then
    let ext := Ext (Entry a) in
    let nameOnly := TrimSuffix (Entry a) ext in
    ({| Parent := true; Local := dir; PkgFormat := Format a;
        PkgUser := User a; PkgRepo := Repo a;
        PkgEntry := nameOnly +:+ ".pwn"; PkgOutput := nameOnly +:+ ".amx";
        Dependencies := deps |},
     negb (String.eqb ext "") && negb (String.eqb ext ".pwn"),
     None)
  else
    ({| Parent := true; Local := dir; PkgFormat := Format a;
        PkgUser := User a; PkgRepo := Repo a;
        PkgEntry := "test.pwn"; PkgOutput := "test.amx";
        Dependencies := deps |},
     false,
     if 0 <? length (EntryGenerate a)
     then Some (generated base (EntryGenerate a)) else None).

(** What [getTemplateFile] calls: the HTTP client, the file system and
    the two path functions. The response body and the open file are part
    of the host state. *)
Record Web : Type := {
  disk : Type;
  filepath_Join : string → string → string;
  filepath_Dir : string → string;
  http_Get : string → disk → option error * disk;
  util_Exists : string → disk → bool;
  os_MkdirAll : string → disk → option error * disk;
  os_Create : string → disk → option error * disk;
  io_Copy : string → disk → option error * disk;
  file_Close : string → disk → option error * disk;
  body_Close : disk → disk;
}.

Inductive call : Type :=
| CGet (url : string) (err : option error)
| CExists (path : string) (found : bool)
| CMkdirAll (path : string) (err : option error)
| CCreate (path : string) (err : option error)
| CCopy (path : string) (err : option error)
| CClose (path : string) (err : option error)
| CErro (err : error)
| CBodyClose.

Definition templateRoot : string :=
  "https://raw.githubusercontent.com/Southclaws/pawn-package-template/master/".

(** [getTemplateFile], lines 410-445. The two deferred calls run when the
    function returns, last deferred first: the closure that closes the
    file assigns its result to the named result [err], then the response
    body is closed. *)
Definition getTemplateFile (W : Web) (dir filename : string) (d : disk W)
  : option error * disk W * list call :=
  let url := templateRoot +:+ filename in
  let '(err, d1) := http_Get W url d in
  match err with
  | Some e => (Some e, d1, [CGet url (Some e)])
  | None =>
      let joined := filepath_Join W dir filename in
      let found := util_Exists W joined d1 in
      let outputFile := if found then "init-" +:+ joined else joined in
      let '(err, d2) := os_MkdirAll W (filepath_Dir W outputFile) d1 in
      match err with
      | Some e =>
          (Some e, body_Close W d2,
           [CGet url None; CExists joined found;
            CMkdirAll (filepath_Dir W outputFile) (Some e); CBodyClose])
      | None =>
          let '(err, d3) := os_Create W outputFile d2 in
          match err with
          | Some e =>
              (Some e, body_Close W d3,
               [CGet url None; CExists joined found;
                CMkdirAll (filepath_Dir W outputFile) None;
                CCreate outputFile (Some e); CBodyClose])
          | None =>
              let '(copyErr, d4) := io_Copy W outputFile d3 in
              let '(closeErr, d5) := file_Close W outputFile d4 in
              (closeErr, body_Close W d5,
               [CGet url None; CExists joined found;
                CMkdirAll (filepath_Dir W outputFile) None;
                CCreate outputFile None; CCopy outputFile copyErr;
                CClose outputFile closeErr] ++
               match closeErr with Some e => [CErro e] | None => [] end ++
               [CBodyClose])
          end
      end
  end.

(** The paths a call creates or writes. *)
Definition writes (c : call) : option string :=
  match c with
  | CCreate path _ | CCopy path _ => Some path
  | _ => None
  end.

Definition isCopy (c : call) : bool :=
  match c with CCopy _ _ => true | _ => false end.

Definition isCreated (c : call) : bool :=
  match c with CCreate _ None => true | _ => false end.

Definition isMade (c : call) : bool :=
  match c with CMkdirAll _ None => true | _ => false end.

(** [before] for the calls of [getTemplateFile]. *)
Definition precedes (P Q : call → bool) (calls : list call) : Prop :=
  ∀ pre c post, calls = pre ++ c :: post → Q c = true →
    ∃ c', c' ∈ pre ∧ P c' = true.

(** A simulated web: the disk is the set of paths that exist, the server
    answers unless [down], and the copy fails when [full]. *)
Definition Join (dir name : string) : string := dir +:+ "/" +:+ name.

Definition web (down full : bool) : Web := {|
  disk := gset string;
  filepath_Join := Join;
  filepath_Dir := λ path, TrimSuffix path (Sim.base path);
  http_Get := λ url d,
    if down then (Some (Errorf "dial tcp: network is unreachable"), d) else (None, d);
  util_Exists := λ path d, bool_decide (path ∈ d);
  os_MkdirAll := λ path d, (None, {[path]} ∪ d);
  os_Create := λ path d, (None, {[path]} ∪ d);
  io_Copy := λ path d,
    if full then (Some (Errorf "write: no space left on device"), d) else (None, d);
  file_Close := λ path d, (None, d);
  body_Close := λ d, d;
|}.

(** The entries of a walk that are regular files with extension [ext]. *)
Definition hasExt (ext : string) (entry : string * option bool) : bool :=
  match entry.2 with
  | Some false => String.eqb (Ext entry.1) ext
  | _ => false
  end.

Definition picked (ext : string) (found : list (string * option bool)) : list string :=
  fst <$> List.filter (hasExt ext) found.

(** [filepath.Rel] for clean slash-separated paths, the target below the
    base path; any other target is refused with the error of the library. *)
Definition Rel (basepath targpath : string) : error + string :=
  if HasPrefix targpath (basepath +:+ "/")
  then inr (String.substring (String.length basepath + 1) (String.length targpath) targpath)
  else inl (Errorf ("Rel: can't make " +:+ targpath +:+ " relative to " +:+ basepath)).

(** A project directory as [filepath.Walk] lists it, and a listing with an
    entry that is not below the directory. *)
Definition sampleTree : list (string * option bool) :=
  [("proj", Some true); ("proj/README.md", Some false);
   ("proj/gamemodes", Some true); ("proj/gamemodes/main.pwn", Some false);
   ("proj/lib.inc", Some false)].

Definition strayTree : list (string * option bool) :=
  [("proj", Some true); ("proj/lib.inc", Some false)] ++
  ("elsewhere/notes.txt", Some false) :: [("proj/main.pwn", Some false)].

(** Answers that name an include file as the entry point. *)
Definition libraryAnswers : Answers := {|
  Format := "json"; User := "Southclaws"; Repo := "formatex";
  GitIgnore := true; Readme := true; Editor := "vscode"; StdLib := true;
  EntryGenerate := []; Entry := "src/formatex.inc";
|}.

End Rook.

(** * Properties *)

(** ** The template engine on concrete inputs *)

Example mustRender_url :
  mustRender "https://github.com/Zeex/pawn/releases/download/v{{.Version}}/pawnc-{{.Version}}-linux.tar.gz" "3.10.4"
  = Done "https://github.com/Zeex/pawn/releases/download/v3.10.4/pawnc-3.10.4-linux.tar.gz".
Proof. reflexivity. Qed.

Example mustRender_plus :
  mustRender "pawnc-{{.Version}}-linux/bin/pawncc" "3.10.4+rc1"
  = Done "pawnc-3.10.4&#43;rc1-linux/bin/pawncc".
Proof. reflexivity. Qed.

Example mustRender_unclosed :
  ∃ e, mustRender "pawnc-{{.Version" "3.10.4" = Panic e.
Proof. by eexists. Qed.

Example mustRender_unknown_field :
  ∃ e, mustRender "pawnc-{{.Verison}}" "3.10.4" = Panic e.
Proof. by eexists. Qed.

Example ReplaceAll_ex :
  ReplaceAll "pawnc-{{.Version}}-linux/{{.Version}}" placeholder "3.10.4+rc1"
  = "pawnc-3.10.4+rc1-linux/3.10.4+rc1".
Proof. reflexivity. Qed.

(** ** Occurrences of a pattern *)

Lemma HasPrefix_sep p a c b :
  mentions c p = false → HasPrefix (a +:+ String c b) p = HasPrefix a p.
Proof.
  revert a. induction p as [|y p' IH]; intros a Hc; [by destruct a|].
  simpl in Hc. apply orb_false_elim in Hc as [Hy Hp'].
  destruct a as [|x a]; simpl.
  - by rewrite Hy.
  - destruct (Ascii.eqb y x); [by apply IH|done].
Qed.

Lemma HasPrefix_head p c s :
  mentions c p = false → p ≠ "" → HasPrefix (String c s) p = false.
Proof.
  intros Hc Hp. destruct p as [|y p]; [done|]. simpl in *.
  by apply orb_false_elim in Hc as [-> _].
Qed.

Lemma occurrences_sep p a c b :
  p ≠ "" → mentions c p = false →
  occurrences p (a +:+ String c b) = occurrences p a + occurrences p b.
Proof.
  intros Hp Hc. induction a as [|x a IH].
  - change ("" +:+ String c b) with (String c b).
    cbn [occurrences]. by rewrite HasPrefix_head.
  - change (String x a +:+ String c b) with (String x (a +:+ String c b)).
    cbn [occurrences]. rewrite IH.
    change (String x (a +:+ String c b)) with (String x a +:+ String c b).
    rewrite (HasPrefix_sep p (String x a) c b Hc). lia.
Qed.

Lemma occurrences_skip p r s :
  p ≠ "" → avoids p r = true → occurrences p (r +:+ s) = occurrences p s.
Proof.
  intros Hp. induction r as [|c r IH]; intros Hr; [done|].
  simpl in Hr. apply andb_prop in Hr as [Hc Hr]. apply negb_true_iff in Hc.
  change (String c r +:+ s) with ("" +:+ String c (r +:+ s)).
  rewrite occurrences_sep by done. simpl. by apply IH.
Qed.

Lemma HasPrefix_skip p r s :
  p ≠ "" → r ≠ "" → avoids p r = true → HasPrefix (r +:+ s) p = false.
Proof.
  intros Hp Hr Ha. destruct r as [|c r]; [done|].
  simpl in Ha. apply andb_prop in Ha as [Hc _]. apply negb_true_iff in Hc.
  change (String c r +:+ s) with (String c (r +:+ s)). by apply HasPrefix_head.
Qed.

Lemma htmlReplacer_cons c s :
  htmlReplacer (String c s) =
    (if decide (htmlReplacementTable c = "") then String c "" else htmlReplacementTable c)
    +:+ htmlReplacer s.
Proof.
  simpl. destruct (htmlReplacementTable c) eqn:E; [by rewrite decide_True|].
  by rewrite decide_False.
Qed.

Lemma avoids_tail y p r : avoids (String y p) r = true → avoids p r = true.
Proof.
  induction r as [|c r IH]; [done|]. simpl.
  intros [Hc Hr]%andb_prop. rewrite IH by done.
  apply negb_true_iff, orb_false_elim in Hc as [_ ->]. done.
Qed.

Lemma inert_tail y p : inert (String y p) → inert p.
Proof.
  intros Hin c Hc. destruct (Hin c Hc) as [Hm Ha]. split.
  - simpl in Hm. by apply orb_false_elim in Hm as [_ ?].
  - by eapply avoids_tail.
Qed.

Lemma HasPrefix_htmlReplacer p s :
  inert p → HasPrefix (htmlReplacer s) p = HasPrefix s p.
Proof.
  revert s. induction p as [|y p IH]; intros s Hin; [by destruct s as [|c s]; simpl; [|destruct (match htmlReplacementTable c with "" => _ | _ => _ end)]|].
  destruct s as [|c s]; [done|].
  rewrite htmlReplacer_cons. case_decide as Hc.
  - change (String c "" +:+ htmlReplacer s) with (String c (htmlReplacer s)).
    simpl. destruct (Ascii.eqb y c); [|done]. apply IH. by eapply inert_tail.
  - destruct (Hin c Hc) as [Hm Ha].
    rewrite HasPrefix_skip, HasPrefix_head; done.
Qed.

Lemma occurrences_htmlReplacer p s :
  inert p → p ≠ "" → occurrences p (htmlReplacer s) = occurrences p s.
Proof.
  intros Hin Hp. induction s as [|c s IH]; [done|].
  cbn [occurrences]. rewrite <- IH, <- (HasPrefix_htmlReplacer p (String c s) Hin).
  rewrite htmlReplacer_cons. case_decide as Hc.
  - reflexivity.
  - destruct (Hin c Hc) as [Hm Ha].
    rewrite occurrences_skip, HasPrefix_skip; done.
Qed.

Lemma inert_placeholder : inert placeholder.
Proof.
  intros [[] [] [] [] [] [] [] []]; vm_compute; first [done | by split].
Qed.

Lemma inert_delim : inert "{{".
Proof.
  intros [[] [] [] [] [] [] [] []]; vm_compute; first [done | by split].
Qed.

Lemma inert_close : inert "}}".
Proof.
  intros [[] [] [] [] [] [] [] []]; vm_compute; first [done | by split].
Qed.

Lemma inert_syntax p : p ∈ placeholderSyntax → inert p ∧ p ≠ "".
Proof.
  unfold placeholderSyntax. intros Hp.
  repeat (apply elem_of_cons in Hp as [->|Hp]); [| | |by apply elem_of_nil in Hp].
  - split; [apply inert_placeholder|done].
  - split; [apply inert_delim|done].
  - split; [apply inert_close|done].
Qed.

(** Peeling literal bytes off the front and splitting at the byte that
    follows an inserted version. *)
Ltac peel e :=
  repeat first
    [ progress cbn [occurrences HasPrefix Ascii.eqb Bool.eqb Nat.add]
    | rewrite (occurrences_sep _ e) by done ].

(** Substituting a string without placeholder syntax into a catalog
    template leaves none behind. *)
Lemma catalog_resolve_clean p t e :
  p ∈ placeholderSyntax → t ∈ catalogTemplates initMemory →
  occurrences p e = 0 → occurrences p (resolve t e) = 0.
Proof.
  intros Hp Ht He.
  let l := eval vm_compute in (catalogTemplates initMemory) in
    change (catalogTemplates initMemory) with l in Ht.
  unfold placeholderSyntax, placeholder in Hp.
  repeat (apply elem_of_cons in Hp as [->|Hp]); [| | |by apply elem_of_nil in Hp].
  all: repeat (apply elem_of_cons in Ht as [->|Ht]); [..|by apply elem_of_nil in Ht].
  all: match goal with |- occurrences ?p (resolve ?t ?x) = 0 =>
         let y := eval cbv -[String.append] in (resolve t x) in
         change (resolve t x) with y; peel x end.
  all: rewrite ?He; reflexivity.
Qed.

(** On a catalog template the template engine is the substitution of the
    HTML-escaped version. *)
Lemma mustRender_catalog t version :
  t ∈ catalogTemplates initMemory →
  mustRender t version = Done (resolve t (htmlEscaper version)).
Proof.
  intros Ht.
  let l := eval vm_compute in (catalogTemplates initMemory) in
    change (catalogTemplates initMemory) with l in Ht.
  repeat (apply elem_of_cons in Ht as [->|Ht]); [..|by apply elem_of_nil in Ht].
  all: vm_compute; reflexivity.
Qed.

(** ** The range loop and [GetCompilerPackageInfo] *)

Ltac go_unfold :=
  unfold mbind, mret, Go_bind, Go_ret, go_bind, go_ret, lift, emit, getMemory, call in *.

Section Info.
Context (H : Host).

Lemma framed_refl r (s : State H) : framed r s s.
Proof. by repeat split. Qed.

Lemma framed_assign r (s s' : State H) k v :
  framed r s s' → framed r s (map_assign H r k v s').1.2.
Proof.
  intros (?&?&?&?&Hm). repeat split; simpl; try done.
  intros r' Hr'. rewrite lookup_insert_ne by done. by apply Hm.
Qed.

Lemma loop_cons version r k v l s :
  loop H version r ((k, v) :: l) s =
    match loop H version r l s with
    | (Done _, s1, evs1) =>
        match mustRender k version, mustRender v version with
        | Done ko, Done vo => (Done (), (map_assign H r ko vo s1).1.2, evs1 ++ [])
        | Done _, Panic e => (Panic e, s1, evs1 ++ [])
        | Done _, Unmodelled => (Unmodelled, s1, evs1 ++ [])
        | Panic e, _ => (Panic e, s1, evs1 ++ [])
        | Unmodelled, _ => (Unmodelled, s1, evs1 ++ [])
        end
    | other => other
    end.
Proof.
  unfold loop. simpl. fold (loop H version r l). unfold rangeBody. go_unfold.
  destruct (loop H version r l s) as [[[] s1] evs1]; [|done..].
  destruct (mustRender k version); [|done..].
  by destruct (mustRender v version).
Qed.

(** The loop makes no call and writes to the new map only. *)
Lemma loop_frame version r l s res s' evs :
  loop H version r l s = (res, s', evs) → evs = [] ∧ framed r s s'.
Proof.
  revert res s' evs. induction l as [|[k v] l IH]; intros res s' evs.
  - intros [= <- <- <-]. split; [done|apply framed_refl].
  - rewrite loop_cons.
    destruct (loop H version r l s) as [[res1 s1] evs1] eqn:E.
    destruct (IH _ _ _ eq_refl) as [-> Hf].
    destruct res1; [|by intros [= <- <- <-]..].
    destruct (mustRender k version); [|by intros [= <- <- <-]..].
    destruct (mustRender v version); intros [= <- <- <-]; (split; [done|]); try done.
    by apply framed_assign.
Qed.

(** When every template renders, the loop finishes and the new map
    holds the rendered entries. *)
Lemma loop_done version r l s m0 :
  maps (mem s) !! r = Some m0 →
  Forall (λ kv, renders version kv.1 ∧ renders version kv.2) l →
  ∃ s', loop H version r l s = (Done (), s', []) ∧
        maps (mem s') !! r =
          Some (foldr (λ kv, insert (rendered version kv).1 (rendered version kv).2) m0 l).
Proof.
  intros Hr. induction 1 as [|[k v] l [[ko Hk] [vo Hv]] _ (s1 & E & Hm)].
  - by exists s.
  - rewrite loop_cons, E. cbn [foldr rendered fst snd] in *.
    rewrite Hk, Hv. eexists. split; [done|].
    simpl. by rewrite lookup_insert_eq, Hm.
Qed.

(** [GetCompilerPackageInfo] makes no call, leaves the host and the
    package-level variables alone and writes to no map that existed
    when it was called. *)
Lemma info_frame os version s res s' evs :
  GetCompilerPackageInfo H os version s = (res, s', evs) →
  evs = [] ∧ host s' = host s ∧
  pawnMacOS (mem s') = pawnMacOS (mem s) ∧
  pawnLinux (mem s') = pawnLinux (mem s) ∧
  pawnWin32 (mem s') = pawnWin32 (mem s) ∧
  ∀ r, is_Some (maps (mem s) !! r) → maps (mem s') !! r = maps (mem s) !! r.
Proof.
  unfold GetCompilerPackageInfo. go_unfold.
  destruct (selectPackage (mem s) os) as [pkg|]; [|by intros [= <- <- <-]].
  destruct (mustRender (URL pkg) version); [|by intros [= <- <- <-]..].
  unfold make_map. simpl. rewrite map_fold_foldr.
  set (r := fresh (dom (maps (mem s)))).
  match goal with |- context [foldr _ _ ?l ?s1] =>
    change (foldr _ _ l s1) with (loop H version r l s1);
    destruct (loop H version r l s1) as [[res1 s2] evs2] eqn:E end.
  apply loop_frame in E as [-> (Hh & Hmac & Hlin & Hwin & Hm)]. simpl in *.
  assert (∀ r', is_Some (maps (mem s) !! r') →
                maps (mem s2) !! r' = maps (mem s) !! r') as Hkeep.
  { intros r' Hr'. assert (r' ≠ r) as Hne.
    { intros ->. apply elem_of_dom in Hr'. by apply is_fresh in Hr'. }
    rewrite Hm by done. by rewrite lookup_insert_ne. }
  destruct res1; [|by intros [= <- <- <-]..].
  destruct (url_Path H a); intros [= <- <- <-]; done.
Qed.

(** The result of [GetCompilerPackageInfo] when every template of the
    selected descriptor renders. *)
Lemma info_done os version s tmpl url :
  selectPackage (mem s) os = Some tmpl →
  mustRender (URL tmpl) version = Done url →
  map_Forall (λ k v, renders version k ∧ renders version v) (entries (mem s) (Paths tmpl)) →
  ∃ s',
    let r := fresh (dom (maps (mem s))) in
    let pkg := {| URL := url; Method := Method tmpl; Paths := Some r |} in
    GetCompilerPackageInfo H os version s =
      (Done (match url_Path H url with
             | inl e => (pkg, "", Some e)
             | inr path => (pkg, filepath_Base H path, None)
             end), s', []) ∧
    entries (mem s') (Some r) =
      list_to_map (rendered version <$> map_to_list (entries (mem s) (Paths tmpl))).
Proof.
  intros Hsel Hurl Hall. unfold GetCompilerPackageInfo. go_unfold.
  rewrite Hsel, Hurl. unfold make_map. simpl. rewrite map_fold_foldr.
  set (r := fresh (dom (maps (mem s)))).
  match goal with |- context [foldr _ _ ?l ?s1] =>
    change (foldr _ _ l s1) with (loop H version r l s1);
    destruct (loop_done version r l s1 ∅) as (s2 & E & Hm) end.
  { simpl. apply lookup_insert_eq. }
  { apply Forall_forall. intros [k v] Hkv%elem_of_map_to_list. by apply Hall in Hkv. }
  rewrite E. exists s2. split.
  - by destruct (url_Path H url).
  - simpl. rewrite Hm. simpl. clear. induction (map_to_list _) as [|kv l IH]; [done|].
    simpl. by rewrite IH.
Qed.

(** An identifier the chain of comparisons does not know. *)
Lemma selectPackage_None m os : ¬ supported os → selectPackage m os = None.
Proof.
  intros Hos. unfold selectPackage.
  destruct (String.eqb_spec os "windows") as [->|_]; [destruct Hos; by left|].
  destruct (String.eqb_spec os "linux") as [->|_]; [destruct Hos; right; by left|].
  destruct (String.eqb_spec os "darwin") as [->|_]; [destruct Hos; right; by right|].
  done.
Qed.

Lemma selectPackage_Some m os :
  supported os → ∃ tmpl, selectPackage m os = Some tmpl.
Proof. intros [-> | [-> | ->]]; eexists; reflexivity. Qed.

Lemma selectPackage_elem m os tmpl :
  selectPackage m os = Some tmpl → tmpl ∈ [pawnMacOS m; pawnLinux m; pawnWin32 m].
Proof.
  unfold selectPackage. repeat case_match; intros [= <-]; set_solver.
Qed.

(** The templates of the selected descriptor are catalog templates. *)
Lemma selectPackage_templates m os tmpl t :
  selectPackage m os = Some tmpl → t ∈ descriptorTemplates m tmpl →
  t ∈ catalogTemplates m.
Proof.
  intros Hsel%selectPackage_elem Ht. unfold catalogTemplates.
  apply list_elem_of_In, in_flat_map. exists tmpl.
  split; by apply list_elem_of_In.
Qed.

Lemma descriptorTemplates_entry m pkg k v :
  entries m (Paths pkg) !! k = Some v →
  k ∈ descriptorTemplates m pkg ∧ v ∈ descriptorTemplates m pkg.
Proof.
  intros Hkv%elem_of_map_to_list. unfold descriptorTemplates.
  split; apply elem_of_cons; right; apply list_elem_of_In, in_flat_map;
    exists (k, v); (split; [by apply list_elem_of_In|]); simpl; auto.
Qed.

Lemma catalogIntact_templates m :
  catalogIntact m → catalogTemplates m = catalogTemplates initMemory.
Proof.
  intros [_ Hview]. unfold catalogView, entryView in Hview.
  injection Hview as Hmac Emac Hlin Elin Hwin Ewin.
  unfold catalogTemplates, descriptorTemplates. simpl flat_map.
  by rewrite Emac, Elin, Ewin, Hmac, Hlin, Hwin.
Qed.
End Info.

(** ** The descriptor [GetCompilerPackageInfo] returns *)

Section Resolution.
Context (H : Host).

(** On an intact catalog, [GetCompilerPackageInfo] returns the selected
    descriptor with the HTML-escaped version substituted into the
    locator and into every key and value of a fresh path map. *)
Lemma info_catalog os version s tmpl :
  catalogIntact (mem s) → selectPackage (mem s) os = Some tmpl →
  ∃ s',
    let r := fresh (dom (maps (mem s))) in
    let url := resolve (URL tmpl) (htmlEscaper version) in
    let pkg := {| URL := url; Method := Method tmpl; Paths := Some r |} in
    GetCompilerPackageInfo H os version s =
      (Done (match url_Path H url with
             | inl e => (pkg, "", Some e)
             | inr path => (pkg, filepath_Base H path, None)
             end), s', []) ∧
    entries (mem s') (Some r) =
      resolvePaths (entries (mem s) (Paths tmpl)) (htmlEscaper version).
Proof.
  intros Hint Hsel.
  assert (∀ t, t ∈ descriptorTemplates (mem s) tmpl →
               mustRender t version = Done (resolve t (htmlEscaper version))) as Hcat.
  { intros t Ht. apply mustRender_catalog.
    rewrite <- (catalogIntact_templates _ Hint). by eapply selectPackage_templates. }
  destruct (info_done H os version s tmpl (resolve (URL tmpl) (htmlEscaper version)))
    as (s' & E & Hm); [done| |  |].
  { apply Hcat. by left. }
  { intros k v [Hk Hv]%descriptorTemplates_entry. split; eexists; by apply Hcat. }
  exists s'. split; [exact E|]. cbv zeta in Hm. rewrite Hm. unfold resolvePaths.
  f_equal. apply list_fmap_ext. intros i [k v] Hkv%list_elem_of_lookup_2.
  apply elem_of_map_to_list, descriptorTemplates_entry in Hkv as [Hk Hv].
  unfold rendered. simpl. by rewrite (Hcat k Hk), (Hcat v Hv).
Qed.

(** A version the escaper leaves alone is substituted literally. *)
Lemma info_catalog_literal os version s tmpl :
  catalogIntact (mem s) → selectPackage (mem s) os = Some tmpl →
  htmlEscaper version = version →
  ∃ pkg filename err s',
    GetCompilerPackageInfo H os version s = (Done (pkg, filename, err), s', []) ∧
    URL pkg = resolve (URL tmpl) version ∧
    entries (mem s') (Paths pkg) = resolvePaths (entries (mem s) (Paths tmpl)) version.
Proof.
  intros Hint Hsel Hesc.
  destruct (info_catalog os version s tmpl Hint Hsel) as (s' & E & Hm).
  cbv zeta in E, Hm. rewrite Hesc in E, Hm.
  destruct (url_Path H (resolve (URL tmpl) version)); by repeat eexists.
Qed.
End Resolution.

(** ** Claims about [GetCompilerPackageInfo] *)

Lemma catalogAllocated_init : catalogAllocated initMemory.
Proof.
  unfold catalogAllocated, allocated, initMemory. cbn [pawnMacOS pawnLinux pawnWin32 maps Paths].
  repeat split; intros r [= <-]; rewrite ?lookup_insert_ne by done;
    rewrite lookup_insert_eq; eauto.
Qed.

Lemma catalogIntact_init : catalogIntact initMemory.
Proof. split; [apply catalogAllocated_init|done]. Qed.

(** C8. For a version string that contains no placeholder syntax (the
    placeholder or one of its delimiters), every template of the platform
    catalog renders, and its output contains none either; the descriptor
    [GetCompilerPackageInfo] returns for a supported platform therefore has
    a locator, path-map keys and path-map values without placeholder
    occurrences. *)
Theorem template_resolution_totality (H : Host) os version (s : State H) p :
  catalogIntact (mem s) → supported os →
  p ∈ placeholderSyntax → occurrences p version = 0 →
  (∀ t, t ∈ catalogTemplates (mem s) →
        ∃ out, mustRender t version = Done out ∧ occurrences p out = 0) ∧
  ∃ pkg filename err s',
    GetCompilerPackageInfo H os version s = (Done (pkg, filename, err), s', []) ∧
    occurrences p (URL pkg) = 0 ∧
    map_Forall (λ k v, occurrences p k = 0 ∧ occurrences p v = 0)
               (entries (mem s') (Paths pkg)).
Proof.
  intros Hint Hos Hp Hv.
  destruct (inert_syntax p Hp) as [Hinert Hne].
  assert (occurrences p (htmlEscaper version) = 0) as He.
  { unfold htmlEscaper. by rewrite occurrences_htmlReplacer. }
  assert (∀ t, t ∈ catalogTemplates (mem s) →
               occurrences p (resolve t (htmlEscaper version)) = 0) as Hclean.
  { intros t Ht. rewrite (catalogIntact_templates _ Hint) in Ht.
    by apply catalog_resolve_clean. }
  split.
  - intros t Ht. eexists. split; [|by apply Hclean].
    apply mustRender_catalog. by rewrite <- (catalogIntact_templates _ Hint).
  - destruct (selectPackage_Some (mem s) os Hos) as [tmpl Hsel].
    destruct (info_catalog H os version s tmpl Hint Hsel) as (s' & E & Hm).
    cbv zeta in E, Hm.
    assert (occurrences p (resolve (URL tmpl) (htmlEscaper version)) = 0) as Hurl.
    { apply Hclean. eapply selectPackage_templates; [done|]. by left. }
    assert (map_Forall (λ k v, occurrences p k = 0 ∧ occurrences p v = 0)
              (resolvePaths (entries (mem s) (Paths tmpl)) (htmlEscaper version))) as Hpaths.
    { intros k' v' Hkv%elem_of_list_to_map_2.
      apply list_elem_of_fmap in Hkv as ([k v] & [= -> ->] & Hkv).
      apply elem_of_map_to_list, descriptorTemplates_entry in Hkv as [Hk Hv'].
      simpl. split; apply Hclean; by eapply selectPackage_templates. }
    rewrite <- Hm in Hpaths.
    destruct (url_Path H (resolve (URL tmpl) (htmlEscaper version)));
      do 4 eexists; (split; [exact E|]); by split.
Qed.

Lemma template_resolution_totality_witness :
  catalogIntact initMemory ∧ supported "linux" ∧
  placeholder ∈ placeholderSyntax ∧ occurrences placeholder "3.10.4" = 0 ∧
  ∃ pkg filename err s',
    GetCompilerPackageInfo Sim.linux "linux" "3.10.4" (Sim.start Sim.linux Sim.emptyDisk)
      = (Done (pkg, filename, err), s', []) ∧
    occurrences placeholder (URL pkg) = 0 ∧
    map_Forall (λ k v, occurrences placeholder k = 0 ∧ occurrences placeholder v = 0)
               (entries (mem s') (Paths pkg)).
Proof.
  assert (supported "linux") as Hos by (right; by left).
  assert (placeholder ∈ placeholderSyntax) as Hp by (by left).
  assert (occurrences placeholder "3.10.4" = 0) as Hv by reflexivity.
  repeat split; try done; try apply catalogAllocated_init.
  exact (proj2 (template_resolution_totality Sim.linux "linux" "3.10.4"
                  (Sim.start Sim.linux Sim.emptyDisk) placeholder catalogIntact_init Hos Hp Hv)).
Defined.

(** C3. [GetCompilerPackageInfo] renders its templates with html/template,
    which HTML-escapes the version it prints: for the version [3.10.4+rc1]
    the locator and the path-map keys hold [&#43;] where the literal
    replacement of the placeholder has [+]. *)
Theorem version_is_html_escaped :
  ∃ pkg filename err s',
    GetCompilerPackageInfo Sim.linux "linux" "3.10.4+rc1" (Sim.start Sim.linux Sim.emptyDisk)
      = (Done (pkg, filename, err), s', []) ∧
    URL pkg = "https://github.com/Zeex/pawn/releases/download/v3.10.4&#43;rc1/pawnc-3.10.4&#43;rc1-linux.tar.gz" ∧
    resolve (URL (pawnLinux initMemory)) "3.10.4+rc1"
      = "https://github.com/Zeex/pawn/releases/download/v3.10.4+rc1/pawnc-3.10.4+rc1-linux.tar.gz" ∧
    URL pkg ≠ resolve (URL (pawnLinux initMemory)) "3.10.4+rc1" ∧
    entries (mem s') (Paths pkg) !! "pawnc-3.10.4&#43;rc1-linux/bin/pawncc" = Some "pawncc" ∧
    entries (mem s') (Paths pkg) !! "pawnc-3.10.4+rc1-linux/bin/pawncc" = None ∧
    resolvePaths (entries initMemory (Paths (pawnLinux initMemory))) "3.10.4+rc1"
      !! "pawnc-3.10.4+rc1-linux/bin/pawncc" = Some "pawncc".
Proof.
  destruct (info_catalog Sim.linux "linux" "3.10.4+rc1" (Sim.start Sim.linux Sim.emptyDisk)
              (pawnLinux initMemory) catalogIntact_init eq_refl) as (s' & E & Hm).
  cbv zeta in E, Hm. eexists _, _, _, s'. split; [rewrite E; reflexivity|].
  cbn [URL Paths]. rewrite Hm.
  do 2 (split; [vm_compute; reflexivity|]).
  split; [apply String.eqb_neq; vm_compute; reflexivity|].
  repeat (split; [vm_compute; reflexivity|]).
  vm_compute; reflexivity.
Qed.

(** C9. A call of [GetCompilerPackageInfo], whatever the platform and the
    version and however it ends, leaves the three package-level
    descriptors and the entries of their path maps as they were. *)
Theorem catalog_never_mutated (H : Host) os version (s : State H) :
  catalogAllocated (mem s) →
  let s' := (GetCompilerPackageInfo H os version s).1.2 in
  catalogView (mem s') = catalogView (mem s) ∧ catalogAllocated (mem s').
Proof.
  intros (Hmac & Hlin & Hwin).
  destruct (GetCompilerPackageInfo H os version s) as [[res s'] evs] eqn:E.
  apply info_frame in E as (_ & _ & Emac & Elin & Ewin & Hkeep). simpl.
  assert (∀ pkg, allocated (mem s) pkg →
                 entries (mem s') (Paths pkg) = entries (mem s) (Paths pkg) ∧
                 allocated (mem s') pkg) as Hpkg.
  { intros pkg Hpkg. unfold entries, allocated in *.
    destruct (Paths pkg) as [r|]; [|done].
    specialize (Hpkg r eq_refl). rewrite (Hkeep r Hpkg).
    split; [done|]. intros ? [= <-]. by rewrite (Hkeep r Hpkg). }
  destruct (Hpkg _ Hmac) as [Vmac ?], (Hpkg _ Hlin) as [Vlin ?], (Hpkg _ Hwin) as [Vwin ?].
  unfold catalogView, entryView, catalogAllocated. rewrite Emac, Elin, Ewin.
  split; [|done]. by rewrite Vmac, Vlin, Vwin.
Qed.

Lemma catalog_never_mutated_witness :
  catalogAllocated initMemory ∧
  let s' := (GetCompilerPackageInfo Sim.linux "linux" "3.10.4"
               (Sim.start Sim.linux Sim.emptyDisk)).1.2 in
  catalogView (mem s') = catalogView initMemory ∧ catalogAllocated (mem s').
Proof.
  split; [apply catalogAllocated_init|].
  exact (catalog_never_mutated Sim.linux "linux" "3.10.4"
           (Sim.start Sim.linux Sim.emptyDisk) catalogAllocated_init).
Defined.

(** An identifier outside the catalog: the call returns at once, with the
    zero descriptor and an error that formats [runtime.GOOS]. *)
Lemma info_unsupported (H : Host) os version (s : State H) :
  ¬ supported os →
  GetCompilerPackageInfo H os version s =
    (Done (zeroPackage, "", Some (Errorf ("unsupported OS " +:+ GOOS H))), s, []).
Proof.
  intros Hos. unfold GetCompilerPackageInfo. go_unfold.
  by rewrite selectPackage_None.
Qed.

(** C4. Asked for [freebsd] on a Linux host, [GetCompilerPackageInfo]
    fails at once and without any call, but its error reads
    [unsupported OS linux]: it names the host, and [freebsd], the
    identifier that was rejected, occurs nowhere in it. *)
Theorem unsupported_os_error_names_host :
  ¬ supported "freebsd" ∧
  ∃ e,
    GetCompilerPackageInfo Sim.linux "freebsd" "3.10.4" (Sim.start Sim.linux Sim.emptyDisk)
      = (Done (zeroPackage, "", Some e), Sim.start Sim.linux Sim.emptyDisk, []) ∧
    Error e = "unsupported OS linux" ∧
    occurrences "freebsd" (Error e) = 0.
Proof.
  assert (¬ supported "freebsd") as Hos by (by intros [|[|]]).
  split; [done|]. eexists. split; [by apply info_unsupported|]. by split.
Qed.

(** A locator template that panics ends the call before the path map is
    touched. *)
Lemma info_url_panics (H : Host) os version (s : State H) tmpl e :
  selectPackage (mem s) os = Some tmpl →
  mustRender (URL tmpl) version = Panic e →
  GetCompilerPackageInfo H os version s = (Panic e, s, []).
Proof.
  intros Hsel Hurl. unfold GetCompilerPackageInfo. go_unfold. by rewrite Hsel, Hurl.
Qed.

(** The program of the catalog claims is the program over a template
    library, taken at the model of html/template. *)
Lemma GetCompilerPackageInfo_library (H : Host) os version :
  GetCompilerPackageInfo H os version
  = Library.GetCompilerPackageInfo H (λ _, mustRender) os version.
Proof. reflexivity. Qed.

(** The library [Library.fragment] is the model of html/template,
    completed by rejecting what the model does not decide. *)
Lemma fragment_agrees name text version :
  match mustRender text version with
  | Done out => Library.mustRender Library.fragment name text version = Done out
  | Panic e => Library.mustRender Library.fragment name text version = Panic e
  | Unmodelled => ∃ e, Library.mustRender Library.fragment name text version = Panic e
  end.
Proof.
  unfold mustRender, Library.mustRender. simpl.
  destruct (Parse text) as [tree|e|]; [|done|by eexists].
  destruct (forallb staysInText tree); [|by eexists].
  by destruct (execNodes version tree).
Qed.

Lemma library_Panic E name text version e :
  Library.mustRender E name text version = Panic e ↔ fails E version (name, text) e.
Proof.
  unfold Library.mustRender, fails. simpl.
  destruct (template_Parse E name text) as [e'|tmpl].
  - split; [intros [= ->]; by left|]. intros [[= ->]|(? & [=] & _)]. done.
  - destruct (template_Execute E tmpl version) as [e'|out] eqn:Ex.
    + split; [intros [= ->]; right; by exists tmpl|].
      intros [[=]|(? & [= <-] & Ex')]. congruence.
    + split; [done|]. intros [[=]|(? & [= <-] & Ex')]. congruence.
Qed.

Lemma library_Done E name text version :
  (∃ out, Library.mustRender E name text version = Done out) ↔ succeeds E version (name, text).
Proof.
  unfold Library.mustRender, succeeds. simpl.
  destruct (template_Parse E name text) as [e'|tmpl].
  - split; [by intros [? [=]]|]. by intros (? & ? & [=] & _).
  - destruct (template_Execute E tmpl version) as [e'|out] eqn:Ex.
    + split; [by intros [? [=]]|]. intros (? & ? & [= <-] & Ex'). congruence.
    + split; [intros _; by exists tmpl, out|]. intros _. by exists out.
Qed.

Lemma library_outcome E name text version :
  succeeds E version (name, text) ∨ ∃ e, fails E version (name, text) e.
Proof.
  destruct (Library.mustRender E name text version) as [out|e|] eqn:R.
  - left. apply library_Done. by exists out.
  - right. exists e. by apply library_Panic.
  - unfold Library.mustRender in R.
    destruct (template_Parse E name text); [done|].
    by destruct (template_Execute E _ version).
Qed.

Lemma succeeds_not_fails E version t e : succeeds E version t → ¬ fails E version t e.
Proof.
  intros (tmpl & out & Hp & Hx) [Hf|(tmpl' & Hp' & Hx')]; [congruence|].
  rewrite Hp in Hp'. injection Hp' as <-. congruence.
Qed.

Section LibraryInfo.
Context (H : Host) (E : Engine).

Lemma library_loop_cons version r k v l (s : State H) :
  Library.loop H (Library.mustRender E) version r ((k, v) :: l) s =
    match Library.loop H (Library.mustRender E) version r l s with
    | (Done _, s1, evs1) =>
        match Library.mustRender E "tmp2" k version,
              Library.mustRender E "tmp2" v version with
        | Done ko, Done vo => (Done (), (map_assign H r ko vo s1).1.2, evs1 ++ [])
        | Done _, Panic e => (Panic e, s1, evs1 ++ [])
        | Done _, Unmodelled => (Unmodelled, s1, evs1 ++ [])
        | Panic e, _ => (Panic e, s1, evs1 ++ [])
        | Unmodelled, _ => (Unmodelled, s1, evs1 ++ [])
        end
    | other => other
    end.
Proof.
  unfold Library.loop. simpl. fold (Library.loop H (Library.mustRender E) version r l).
  unfold Library.rangeBody. go_unfold.
  destruct (Library.loop H (Library.mustRender E) version r l s) as [[[] s1] evs1]; [|done..].
  destruct (Library.mustRender E "tmp2" k version); [|done..].
  by destruct (Library.mustRender E "tmp2" v version).
Qed.

(** The range loop over a library: it finishes when every key and value
    template succeeds, and panics with the error of a failing one
    otherwise; it makes no call. *)
Lemma library_loop_outcome version r l (s : State H) :
  (∃ s', Library.loop H (Library.mustRender E) version r l s = (Done (), s', []) ∧
         Forall (λ kv, succeeds E version ("tmp2", kv.1) ∧
                       succeeds E version ("tmp2", kv.2)) l) ∨
  (∃ kv t e s', kv ∈ l ∧ (t = ("tmp2", kv.1) ∨ t = ("tmp2", kv.2)) ∧
                fails E version t e ∧
                Library.loop H (Library.mustRender E) version r l s = (Panic e, s', [])).
Proof.
  induction l as [|[k v] l IH].
  - left. exists s. by split.
  - rewrite library_loop_cons.
    destruct IH as [(s1 & -> & Hall)|(kv & t & e & s1 & Hkv & Ht & Hf & ->)].
    + destruct (Library.mustRender E "tmp2" k version) as [ko|e|] eqn:Ek.
      * destruct (Library.mustRender E "tmp2" v version) as [vo|e|] eqn:Ev.
        -- left. eexists. split; [done|]. constructor; [|done].
           split; apply library_Done; eauto.
        -- right. exists (k, v), ("tmp2", v), e, s1.
           split; [apply list_elem_of_here|]. split; [by right|].
           split; [by apply library_Panic|done].
        -- destruct (library_outcome E "tmp2" v version) as [Hs|[e Hf]].
           ++ apply library_Done in Hs as [? ?]. congruence.
           ++ apply library_Panic in Hf. congruence.
      * right. exists (k, v), ("tmp2", k), e, s1.
        split; [apply list_elem_of_here|]. split; [by left|].
        split; [by apply library_Panic|done].
      * destruct (library_outcome E "tmp2" k version) as [Hs|[e Hf]].
        -- apply library_Done in Hs as [? ?]. congruence.
        -- apply library_Panic in Hf. congruence.
    + right. exists kv, t, e, s1. split; [by apply list_elem_of_further|done].
Qed.

(** [GetCompilerPackageInfo] over a library, on a platform of the
    catalog: either every template of the descriptor succeeds and the call
    returns, with no error or with the error of [url.Parse], or the call
    panics with the error of a template that fails. *)
Lemma library_info_outcome os version (s : State H) tmpl :
  selectPackage (mem s) os = Some tmpl →
  (Forall (succeeds E version) (namedTemplates (mem s) tmpl) ∧
   ∃ url s',
     Library.mustRender E "tmp1" (URL tmpl) version = Done url ∧
     Library.GetCompilerPackageInfo H (Library.mustRender E) os version s
     = (Done (match url_Path H url with
              | inl e => ({| URL := url; Method := Method tmpl;
                             Paths := Some (fresh (dom (maps (mem s)))) |}, "", Some e)
              | inr path => ({| URL := url; Method := Method tmpl;
                                Paths := Some (fresh (dom (maps (mem s)))) |},
                             filepath_Base H path, None)
              end), s', [])) ∨
  (∃ t e s',
     t ∈ namedTemplates (mem s) tmpl ∧ fails E version t e ∧
     Library.GetCompilerPackageInfo H (Library.mustRender E) os version s
     = (Panic e, s', [])).
Proof.
  intros Hsel. unfold Library.GetCompilerPackageInfo, namedTemplates. go_unfold.
  rewrite Hsel.
  destruct (Library.mustRender E "tmp1" (URL tmpl) version) as [url|e|] eqn:Eurl.
  - unfold make_map. simpl. rewrite map_fold_foldr.
    set (r := fresh (dom (maps (mem s)))).
    match goal with |- context [foldr _ _ ?l ?s1] =>
      change (foldr _ _ l s1) with (Library.loop H (Library.mustRender E) version r l s1);
      destruct (library_loop_outcome version r l s1)
        as [(s2 & -> & Hall)|(kv & t & e & s2 & Hkv & Ht & Hf & ->)] end.
    + left. split.
      * constructor; [apply library_Done; eauto|].
        apply Forall_flat_map. eapply Forall_impl; [exact Hall|].
        intros kv [Hk Hv]. by repeat constructor.
      * exists url, s2. split; [done|]. by destruct (url_Path H url).
    + right. exists t, e, s2. split; [|done].
      apply list_elem_of_further, list_elem_of_In, in_flat_map.
      exists kv. split; [by apply list_elem_of_In|].
      destruct Ht as [->| ->]; simpl; auto.
  - right. exists ("tmp1", URL tmpl), e, s.
    split; [apply list_elem_of_here|]. split; [by apply library_Panic|done].
  - destruct (library_outcome E "tmp1" (URL tmpl) version) as [Hs|[e Hf]].
    + apply library_Done in Hs as [? ?]. congruence.
    + apply library_Panic in Hf. congruence.
Qed.
End LibraryInfo.

(** C6, as the code has it, for every template library. On a platform of
    the catalog: when a template of the selected descriptor (the locator
    template or a key or value template of the path map) fails to parse or
    to execute, [GetCompilerPackageInfo] does not return; it panics with
    the error of a failing template, through [template.Must] or
    [panic(err)], and has made no call. And whenever it returns, every
    template of the descriptor parsed and executed, and the error it
    returns is [nil] or the error of [url.Parse] on the resolved locator:
    no template error is returned as a value. *)
Theorem malformed_template_panics (H : Host) (E : Engine) os version (s : State H) tmpl :
  selectPackage (mem s) os = Some tmpl →
  (Exists (λ t, ∃ e, fails E version t e) (namedTemplates (mem s) tmpl) →
   ∃ t e s',
     t ∈ namedTemplates (mem s) tmpl ∧ fails E version t e ∧
     Library.GetCompilerPackageInfo H (Library.mustRender E) os version s
     = (Panic e, s', [])) ∧
  (∀ pkg filename err s' evs,
     Library.GetCompilerPackageInfo H (Library.mustRender E) os version s
     = (Done (pkg, filename, err), s', evs) →
     Forall (succeeds E version) (namedTemplates (mem s) tmpl) ∧
     err = match url_Path H (URL pkg) with inl e => Some e | inr _ => None end).
Proof.
  intros Hsel.
  destruct (library_info_outcome H E os version s tmpl Hsel)
    as [(Hall & url & s1 & Hurl & Hrun)|(t & e & s1 & Ht & Hf & Hrun)].
  - split.
    + intros (t & Ht & e & Hf)%Exists_exists. exfalso.
      rewrite Forall_forall in Hall. exact (succeeds_not_fails _ _ _ _ (Hall t Ht) Hf).
    + intros pkg filename err s' evs Hdone. rewrite Hrun in Hdone.
      split; [done|].
      destruct (url_Path H url) eqn:Eu; injection Hdone as <- <- <- <- <-;
        simpl; by rewrite Eu.
  - split.
    + intros _. by exists t, e, s1.
    + intros pkg filename err s' evs Hdone. rewrite Hrun in Hdone. discriminate Hdone.
Qed.

Lemma malformed_template_panics_witness :
  ∃ t e s',
    t ∈ namedTemplates Sim.unclosedMemory (pawnLinux Sim.unclosedMemory) ∧
    fails Library.fragment "3.10.4" t e ∧
    Library.GetCompilerPackageInfo Sim.linux (Library.mustRender Library.fragment)
      "linux" "3.10.4" (Sim.boot Sim.linux Sim.unclosedMemory Sim.emptyDisk)
    = (Panic e, s', []).
Proof.
  apply (proj1 (malformed_template_panics Sim.linux Library.fragment "linux" "3.10.4"
                  (Sim.boot Sim.linux Sim.unclosedMemory Sim.emptyDisk)
                  (pawnLinux Sim.unclosedMemory) eq_refl)).
  apply Exists_cons_hd. eexists. left. vm_compute. reflexivity.
Defined.

(** C6, as the spec has it, fails: with the Linux locator template left
    unclosed, the template does not parse and the call panics with the
    error of the parser, so no result, and in particular no error, reaches
    the caller. *)
Lemma malformed_template_is_not_returned :
  (∃ e, Parse (URL (pawnLinux Sim.unclosedMemory)) = ParseError e) ∧
  (∃ e, GetCompilerPackageInfo Sim.linux "linux" "3.10.4"
          (Sim.boot Sim.linux Sim.unclosedMemory Sim.emptyDisk)
        = (Panic e, Sim.boot Sim.linux Sim.unclosedMemory Sim.emptyDisk, [])) ∧
  ∀ pkg filename err s' evs,
    GetCompilerPackageInfo Sim.linux "linux" "3.10.4"
      (Sim.boot Sim.linux Sim.unclosedMemory Sim.emptyDisk)
    ≠ (Done (pkg, filename, err), s', evs).
Proof.
  assert (GetCompilerPackageInfo Sim.linux "linux" "3.10.4"
            (Sim.boot Sim.linux Sim.unclosedMemory Sim.emptyDisk)
          = (Panic templateError,
             Sim.boot Sim.linux Sim.unclosedMemory Sim.emptyDisk, [])) as E.
  { by apply (info_url_panics _ _ _ _ (pawnLinux Sim.unclosedMemory)). }
  split; [by eexists|]. split; [by eexists|].
  intros pkg filename err s' evs E'. rewrite E in E'. discriminate E'.
Qed.

(** ** The cache stage and the entry point *)

Section Stages.
Context (H : Host).

(** [CompilerFromCache], one case per way the descriptor lookup ends. *)
Lemma CompilerFromCache_run cacheDir version dir (s : State H) :
  CompilerFromCache H cacheDir version dir s =
    match GetCompilerPackageInfo H (GOOS H) version s with
    | (Done (pkg, filename, Some e), s1, _) => (Done (false, Some e), s1, [])
    | (Done (pkg, filename, None), s1, _) =>
        let paths := entries (mem s1) (Paths pkg) in
        let '((hit, err), w) :=
          FromCache H cacheDir filename dir (Method pkg) paths (host s1) in
        (Done (if hit then (true, err) else (false, None)),
         {| mem := mem s1; host := w |},
         [EvFromCache cacheDir filename dir (Method pkg) paths hit err])
    | (Panic v, s1, _) => (Panic v, s1, [])
    | (Unmodelled, s1, _) => (Unmodelled, s1, [])
    end.
Proof.
  unfold CompilerFromCache. go_unfold.
  destruct (GetCompilerPackageInfo H (GOOS H) version s)
    as [[[[[pkg filename] [e|]]|v|] s1] evs1] eqn:E;
    apply info_frame in E as [-> _]; try done.
  simpl. destruct (FromCache _ _ _ _ _ _ _) as [[[] err] w]; done.
Qed.

(** The cache stage makes at most one call, the cache lookup. *)
Lemma CompilerFromCache_events cacheDir version dir (s : State H) res s' evs :
  CompilerFromCache H cacheDir version dir s = (res, s', evs) →
  Forall (λ ev, isCacheLookup ev = true) evs.
Proof.
  rewrite CompilerFromCache_run.
  destruct (GetCompilerPackageInfo H (GOOS H) version s)
    as [[[[[pkg filename] [e|]]|v|] s1] evs1]; try (intros [= <- <- <-]; done).
  simpl. destruct (FromCache _ _ _ _ _ _ _) as [[hit err] w].
  intros [= <- <- <-]. by repeat constructor.
Qed.

(** [GetCompilerPackage], one case per way its stages end. *)
Lemma GetCompilerPackage_run version dir (s : State H) :
  GetCompilerPackage H version dir s =
    let '((cacheDir, err), w) := GetCacheDir H (host s) in
    let pre := [EvPrintf banner; EvGetCacheDir cacheDir err] in
    match err with
    | Some e => (Done (Some e), {| mem := mem s; host := w |}, pre)
    | None =>
        match CompilerFromCache H cacheDir version dir {| mem := mem s; host := w |} with
        | (Done (_, Some e), s2, evs) =>
            (Done (Some (Wrap e ("failed to get package " +:+ version +:+ " from cache"))),
             s2, pre ++ evs)
        | (Done (true, None), s2, evs) => (Done None, s2, pre ++ evs)
        | (Done (false, None), s2, evs) =>
            let '(r, s3, evs3) := CompilerFromNet H cacheDir version dir s2 in
            (fromNet version r, s3, pre ++ evs ++ evs3)
        | (Panic v, s2, evs) => (Panic v, s2, pre ++ evs)
        | (Unmodelled, s2, evs) => (Unmodelled, s2, pre ++ evs)
        end
    end.
Proof.
  unfold GetCompilerPackage. go_unfold. simpl.
  destruct (GetCacheDir H (host s)) as [[cacheDir [e|]] w]; [done|]. simpl.
  destruct (CompilerFromCache H cacheDir version dir _)
    as [[[[hit [e|]]|v|] s2] evs]; simpl; rewrite ?app_nil_r; try done.
  all: destruct hit; simpl; rewrite ?app_nil_r; try done.
  destruct (CompilerFromNet H cacheDir version dir s2) as [[[[e'|]|v'|] s3] evs3];
    simpl; by rewrite ?app_nil_r.
Qed.
End Stages.

(** ** Claims about the entry point *)

(** C1. When the cache stage reports a hit and no error,
    [GetCompilerPackage] returns success in the state the cache stage left:
    the network stage does not run and the trace holds no network event.
    This is the case of a second run after a first one that succeeded. *)
Theorem cache_hit_skips_network (H : Host) version dir (s : State H)
    cacheDir w s2 evs :
  GetCacheDir H (host s) = ((cacheDir, None), w) →
  CompilerFromCache H cacheDir version dir {| mem := mem s; host := w |}
    = (Done (true, None), s2, evs) →
  GetCompilerPackage H version dir s
    = (Done None, s2, [EvPrintf banner; EvGetCacheDir cacheDir None] ++ evs) ∧
  Forall (λ ev, isNetwork ev = false ∧ isExtract ev = false)
         ([EvPrintf banner; EvGetCacheDir cacheDir None] ++ evs).
Proof.
  intros Hdir Hcache. split.
  - by rewrite GetCompilerPackage_run, Hdir, Hcache.
  - apply CompilerFromCache_events in Hcache.
    repeat (constructor; [done|]).
    eapply Forall_impl; [exact Hcache|]. by intros [].
Qed.

(** C10. When the cache stage returns an error, [GetCompilerPackage]
    returns that error, wrapped, whatever the stage says about a hit; the
    network stage does not run. *)
Theorem cache_error_beats_hit (H : Host) version dir (s : State H)
    cacheDir w hit e s2 evs :
  GetCacheDir H (host s) = ((cacheDir, None), w) →
  CompilerFromCache H cacheDir version dir {| mem := mem s; host := w |}
    = (Done (hit, Some e), s2, evs) →
  GetCompilerPackage H version dir s
    = (Done (Some (Wrap e ("failed to get package " +:+ version +:+ " from cache"))),
       s2, [EvPrintf banner; EvGetCacheDir cacheDir None] ++ evs) ∧
  Forall (λ ev, isNetwork ev = false ∧ isExtract ev = false)
         ([EvPrintf banner; EvGetCacheDir cacheDir None] ++ evs).
Proof.
  intros Hdir Hcache. split.
  - rewrite GetCompilerPackage_run, Hdir, Hcache. by destruct hit.
  - apply CompilerFromCache_events in Hcache.
    repeat (constructor; [done|]).
    eapply Forall_impl; [exact Hcache|]. by intros [].
Qed.

(** C2. When the cache lookup answers [hit = false], with or without an
    error, [CompilerFromCache] returns [(false, nil)], and
    [GetCompilerPackage] goes on to the network stage: how it ends is how
    [CompilerFromNet] ends, and the error of the lookup is in the trace
    only. *)
Theorem cache_miss_falls_through (H : Host) version dir (s : State H)
    cacheDir w pkg filename s1 e w1 :
  GetCacheDir H (host s) = ((cacheDir, None), w) →
  GetCompilerPackageInfo H (GOOS H) version {| mem := mem s; host := w |}
    = (Done (pkg, filename, None), s1, []) →
  FromCache H cacheDir filename dir (Method pkg) (entries (mem s1) (Paths pkg)) (host s1)
    = ((false, e), w1) →
  let s2 := {| mem := mem s1; host := w1 |} in
  let lookup :=
    EvFromCache cacheDir filename dir (Method pkg) (entries (mem s1) (Paths pkg)) false e in
  CompilerFromCache H cacheDir version dir {| mem := mem s; host := w |}
    = (Done (false, None), s2, [lookup]) ∧
  GetCompilerPackage H version dir s
    = (let '(r, s3, evs3) := CompilerFromNet H cacheDir version dir s2 in
       (fromNet version r, s3,
        [EvPrintf banner; EvGetCacheDir cacheDir None; lookup] ++ evs3)).
Proof.
  intros Hdir Hinfo Hlookup s2 lookup.
  assert (CompilerFromCache H cacheDir version dir {| mem := mem s; host := w |}
          = (Done (false, None), s2, [lookup])) as Hcache.
  { by rewrite CompilerFromCache_run, Hinfo; cbv zeta; rewrite Hlookup. }
  split; [done|]. by rewrite GetCompilerPackage_run, Hdir, Hcache.
Qed.


(** ** Claims about the network stage *)

Lemma beforeb_spec P Q evs : before P Q evs ↔ beforeb P Q evs = true.
Proof.
  split.
  - induction evs as [|ev rest IH]; intros Hb; [done|]. simpl.
    destruct (Q ev) eqn:HQ.
    { destruct (Hb [] ev rest eq_refl HQ) as (ev' & Hin & _). by apply elem_of_nil in Hin. }
    destruct (P ev) eqn:HP; [done|]. apply IH.
    intros pre e post -> He.
    destruct (Hb (ev :: pre) e post eq_refl He) as (ev' & [->|Hin]%elem_of_cons & HP').
    + congruence.
    + by exists ev'.
  - induction evs as [|ev rest IH]; intros Hb pre e post Heq He.
    { by destruct pre. }
    simpl in Hb. destruct pre as [|ev0 pre]; simplify_eq/=.
    { by rewrite He in Hb. }
    destruct (Q ev0); [done|]. destruct (P ev0) eqn:HP.
    + exists ev0. split; [by left|done].
    + destruct (IH Hb pre e post eq_refl He) as (ev' & Hin & HP').
      exists ev'. split; [by right|done].
Qed.

Section Net.
Context (H : Host).


End Net.

(** ** Runs on the simulated host *)

Lemma sim_url_Path goos reply fetchErr u :
  url_Path (Sim.machine goos reply fetchErr) u = Sim.urlPath u.
Proof. reflexivity. Qed.

Lemma sim_filepath_Base goos reply fetchErr path :
  filepath_Base (Sim.machine goos reply fetchErr) path = Sim.base path.
Proof. reflexivity. Qed.

Lemma sim_FromCache goos reply fetchErr cacheDir filename dir method paths
    (w : gset string) :
  FromCache (Sim.machine goos reply fetchErr) cacheDir filename dir method paths w
  = (reply (bool_decide (Sim.Join cacheDir filename ∈ w)), w).
Proof. reflexivity. Qed.

Section SimRuns.
Context (reply : bool → bool * option error) (fetchErr : option error).
Local Abbreviation H := (Sim.machine "linux" reply fetchErr).

(** The file name under which the simulated Linux machine caches the
    archive of a version. *)
Local Abbreviation archive version :=
  (Sim.base (Sim.untilQuery (Sim.fromSlash (Sim.afterScheme
     (resolve (URL (pawnLinux initMemory)) (htmlEscaper version)))))).

Lemma sim_info version (w : gset string) :
  ∃ pkg s1,
    GetCompilerPackageInfo H "linux" version (Sim.start H w)
      = (Done (pkg, archive version, None), s1, []) ∧
    host s1 = w.
Proof.
  destruct (info_catalog H "linux" version (Sim.start H w) (pawnLinux initMemory)
              catalogIntact_init eq_refl) as (s1 & E & _).
  cbv zeta in E. rewrite sim_url_Path in E. unfold Sim.urlPath in E.
  rewrite sim_filepath_Base in E.
  pose proof (info_frame _ _ _ _ _ _ _ E) as (_ & Hhost & _).
  eexists _, s1. split; [exact E|exact Hhost].
Qed.

(** The cache stage on that machine: one lookup, answered by [reply]. *)
Lemma sim_cache_stage version dir (w : gset string) hit err :
  reply (bool_decide (Sim.Join Sim.cacheDir (archive version) ∈ w)) = (hit, err) →
  ∃ s2 lookup,
    CompilerFromCache H Sim.cacheDir version dir (Sim.start H w)
      = (Done (if hit then (true, err) else (false, None)), s2, [lookup]) ∧
    host s2 = w.
Proof.
  intros Hreply. destruct (sim_info version w) as (pkg & s1 & E & Hhost).
  rewrite CompilerFromCache_run.
  change (GOOS H) with "linux". rewrite E. cbv zeta.
  rewrite sim_FromCache, Hhost, Hreply.
  match goal with |- context [(Done _, ?s2, [?ev])] => exists s2, ev end.
  split; reflexivity.
Qed.
End SimRuns.

Lemma cache_hit_skips_network_witness :
  ∃ s2 evs,
    GetCompilerPackage Sim.linux "3.10.4" "/opt/pawn" (Sim.start Sim.linux Sim.warmDisk)
      = (Done None, s2, [EvPrintf banner; EvGetCacheDir Sim.cacheDir None] ++ evs) ∧
    Forall (λ ev, isNetwork ev = false ∧ isExtract ev = false)
           ([EvPrintf banner; EvGetCacheDir Sim.cacheDir None] ++ evs).
Proof.
  unfold Sim.linux.
  destruct (sim_cache_stage Sim.honest None "3.10.4" "/opt/pawn" Sim.warmDisk true None)
    as (s2 & lookup & E & _); [vm_compute; reflexivity|].
  exists s2, [lookup].
  exact (cache_hit_skips_network (Sim.machine "linux" Sim.honest None)
           "3.10.4" "/opt/pawn"
           (Sim.start (Sim.machine "linux" Sim.honest None) Sim.warmDisk)
           Sim.cacheDir Sim.warmDisk s2 [lookup] eq_refl E).
Defined.

Lemma cache_error_beats_hit_witness :
  ∃ s2 evs,
    GetCompilerPackage Sim.hitWithError "3.10.4" "/opt/pawn"
      (Sim.start Sim.hitWithError Sim.warmDisk)
    = (Done (Some (Wrap (Errorf "chmod: operation not permitted")
                        "failed to get package 3.10.4 from cache")), s2,
       [EvPrintf banner; EvGetCacheDir Sim.cacheDir None] ++ evs) ∧
    Forall (λ ev, isNetwork ev = false ∧ isExtract ev = false)
           ([EvPrintf banner; EvGetCacheDir Sim.cacheDir None] ++ evs).
Proof.
  unfold Sim.hitWithError.
  destruct (sim_cache_stage (λ _, (true, Some (Errorf "chmod: operation not permitted")))
              None "3.10.4" "/opt/pawn" Sim.warmDisk true
              (Some (Errorf "chmod: operation not permitted")))
    as (s2 & lookup & E & _); [reflexivity|].
  exists s2, [lookup].
  exact (cache_error_beats_hit
           (Sim.machine "linux" (λ _, (true, Some (Errorf "chmod: operation not permitted"))) None)
           "3.10.4" "/opt/pawn"
           (Sim.start
              (Sim.machine "linux" (λ _, (true, Some (Errorf "chmod: operation not permitted"))) None)
              Sim.warmDisk)
           Sim.cacheDir Sim.warmDisk true _ s2 [lookup] eq_refl E).
Defined.

Lemma cache_miss_falls_through_witness :
  ∃ s2 lookup,
    CompilerFromCache Sim.corrupt Sim.cacheDir "3.10.4" "/opt/pawn"
      (Sim.start Sim.corrupt Sim.warmDisk) = (Done (false, None), s2, [lookup]) ∧
    GetCompilerPackage Sim.corrupt "3.10.4" "/opt/pawn" (Sim.start Sim.corrupt Sim.warmDisk)
    = (let '(r, s3, evs3) :=
         CompilerFromNet Sim.corrupt Sim.cacheDir "3.10.4" "/opt/pawn" s2 in
       (fromNet "3.10.4" r, s3,
        [EvPrintf banner; EvGetCacheDir Sim.cacheDir None; lookup] ++ evs3)).
Proof.
  unfold Sim.corrupt.
  destruct (sim_info (λ _, (false, Some (Errorf "zip: not a valid zip file"))) None
              "3.10.4" Sim.warmDisk) as (pkg & s1 & E & Hhost).
  pose proof (cache_miss_falls_through
                (Sim.machine "linux" (λ _, (false, Some (Errorf "zip: not a valid zip file"))) None)
                "3.10.4" "/opt/pawn"
                (Sim.start
                   (Sim.machine "linux" (λ _, (false, Some (Errorf "zip: not a valid zip file"))) None)
                   Sim.warmDisk)
                Sim.cacheDir Sim.warmDisk pkg _ s1
                (Some (Errorf "zip: not a valid zip file")) Sim.warmDisk eq_refl E) as T.
  rewrite sim_FromCache, Hhost in T. specialize (T eq_refl). cbv zeta in T.
  eexists _, _. exact T.
Defined.

(** The miss that came with an error, run to the end: the archive is
    downloaded again and the acquisition succeeds. *)
Example corrupt_cache_recovers :
  let run := GetCompilerPackage Sim.corrupt "3.10.4" "/opt/pawn"
               (Sim.start Sim.corrupt Sim.warmDisk) in
  run.1.1 = Done None ∧
  map isCacheLookup run.2 = [false; false; true; false; false; false; false; false; false] ∧
  map isNetwork run.2 = [false; false; false; false; false; false; false; true; false] ∧
  map isExtract run.2 = [false; false; false; false; false; false; false; false; true].
Proof. vm_compute. by repeat split. Qed.

(** A first run on an empty disk downloads; the same request run again
    in the state the first run left is a cache hit with no network event. *)
Example rerun_is_pure_cache_hit :
  let first := GetCompilerPackage Sim.linux "3.10.4" "/opt/pawn"
                 (Sim.start Sim.linux Sim.emptyDisk) in
  let second := GetCompilerPackage Sim.linux "3.10.4" "/opt/pawn" first.1.2 in
  first.1.1 = Done None ∧ existsb isNetwork first.2 = true ∧
  second.1.1 = Done None ∧ existsb isNetwork second.2 = false ∧
  map isCacheLookup second.2 = [false; false; true].
Proof. vm_compute. by repeat split. Qed.

(** C5. With the archive in the cache and no install directory, the cache
    lookup is the third call of [GetCompilerPackage], after the banner and
    the cache directory provider: no call checks or creates the install
    directory in front of it, and the acquisition returns success with
    the directory still absent. *)
Theorem install_dir_not_ensured_before_cache :
  let run := GetCompilerPackage Sim.linux "3.10.4" "/opt/pawn"
               (Sim.start Sim.linux Sim.warmDisk) in
  exists_ Sim.linux "/opt/pawn" Sim.warmDisk = false ∧
  run.1.1 = Done None ∧
  map isCacheLookup run.2 = [false; false; true] ∧
  map (touches "/opt/pawn") run.2 = [false; false; false] ∧
  exists_ Sim.linux "/opt/pawn" (host run.1.2) = false ∧
  ¬ before (touches "/opt/pawn") isCacheLookup run.2.
Proof.
  intros run. do 5 (split; [vm_compute; reflexivity|]).
  intros Hb%beforeb_spec. vm_compute in Hb. discriminate Hb.
Qed.

(** On a host outside the catalog the acquisition stops after the cache
    directory provider: the descriptor lookup fails inside the cache
    stage, and the error, which names [runtime.GOOS], comes back wrapped. *)
Lemma acquisition_on_unsupported_host (H : Host) version dir (s : State H) cacheDir w :
  ¬ supported (GOOS H) →
  GetCacheDir H (host s) = ((cacheDir, None), w) →
  GetCompilerPackage H version dir s
  = (Done (Some (Wrap (Errorf ("unsupported OS " +:+ GOOS H))
                      ("failed to get package " +:+ version +:+ " from cache"))),
     {| mem := mem s; host := w |},
     [EvPrintf banner; EvGetCacheDir cacheDir None]).
Proof.
  intros Hos Hdir.
  rewrite GetCompilerPackage_run, Hdir, CompilerFromCache_run.
  by rewrite info_unsupported.
Qed.

(** The network stage with the network down: the fetch is the last call
    and nothing is extracted. *)
Example offline_fetch_fails :
  let run := CompilerFromNet Sim.offline Sim.cacheDir "3.10.4" "/opt/pawn"
               (Sim.start Sim.offline Sim.emptyDisk) in
  run.1.1 = Done (Some (Wrap (Errorf "dial tcp: network is unreachable")
                             "failed to download package")) ∧
  map isNetwork run.2 = [false; false; false; false; false; true] ∧
  map (ensures Sim.cacheDir) run.2 = [false; false; false; false; true; false] ∧
  existsb isExtract run.2 = false.
Proof. vm_compute. by repeat split. Qed.

(** The network stage with the network up: directories, fetch,
    extraction. *)
Example online_fetch_then_extract :
  let run := CompilerFromNet Sim.linux Sim.cacheDir "3.10.4" "/opt/pawn"
               (Sim.start Sim.linux Sim.emptyDisk) in
  run.1.1 = Done None ∧
  map isNetwork run.2 = [false; false; false; false; false; true; false] ∧
  map isExtract run.2 = [false; false; false; false; false; false; true].
Proof. vm_compute. by repeat split. Qed.


(** ** More about the network stage *)

(** Every way [CompilerFromNet] can run, one goal per sequence of host
    answers. *)
Ltac net_cases H version s pkg filename s1 :=
  unfold CompilerFromNet, ensureDir, callMethod; go_unfold;
  let E := fresh "Einfo" in
  destruct (GetCompilerPackageInfo H (GOOS H) version s)
    as [[[[[pkg filename] [?|]]|?|] s1] ?] eqn:E;
  pose proof (info_frame _ _ _ _ _ _ _ E) as [-> _]; simpl;
  repeat match goal with
    | |- context [exists_ H ?p ?w] => destruct (exists_ H p w); simpl
    | |- context [MkdirAll H ?p ?w] => destruct (MkdirAll H p w) as [[?|] ?]; simpl
    | |- context [FromNet H ?a ?b ?c ?w] =>
        destruct (FromNet H a b c w) as [[? [?|]] ?]; simpl
    | |- context [match Method pkg with _ => _ end] => destruct (Method pkg) eqn:?; simpl
    | |- context [extract H ?f ?a ?b ?c ?w] =>
        destruct (extract H f a b c w) as [[?|] ?]; simpl
    end.

Ltac split_trace pre := repeat (destruct pre as [|? pre]; simplify_eq/=).

Ltac scan := apply beforeb_spec; simpl; repeat case_bool_decide; done.

Section NetStage.
Context (H : Host).

(** X4. In [CompilerFromNet] every fetch and every extraction has, in
    front of it, a call that found or created the install directory. *)
Theorem install_dir_ensured_before_download cacheDir version dir (s : State H) :
  let '(res, s', evs) := CompilerFromNet H cacheDir version dir s in
  before (ensures dir) isNetwork evs ∧ before (ensures dir) isExtract evs.
Proof.
  net_cases H version s pkg filename s1; split; scan.
Qed.

(** X5. A directory creation that fails is the last call of
    [CompilerFromNet]: nothing was fetched or extracted, and the error
    comes back wrapped in a message that names the directory, the install
    directory or the cache directory. *)
Theorem mkdir_failure_stops_network_stage cacheDir version dir (s : State H) :
  let '(res, s', evs) := CompilerFromNet H cacheDir version dir s in
  ∀ pre path e post,
    evs = pre ++ EvMkdirAll path (Some e) :: post →
    post = [] ∧
    Forall (λ ev, isNetwork ev = false ∧ isExtract ev = false) pre ∧
    (path = dir ∧ res = Done (Some (Wrap e ("failed to create dir " +:+ dir))) ∨
     path = cacheDir ∧ res = Done (Some (Wrap e ("failed to create cache " +:+ cacheDir)))).
Proof.
  net_cases H version s pkg filename s1;
    intros pre ? ? ? ?; split_trace pre;
    (split; [done|split; [repeat constructor|auto]]).
Qed.

(** X6. [CompilerFromNet] calls [os.MkdirAll] on a path only right after
    [exists] answered [false] for that path: a directory that is there is
    never created again. *)
Theorem mkdir_only_when_missing cacheDir version dir (s : State H) :
  let '(res, s', evs) := CompilerFromNet H cacheDir version dir s in
  ∀ pre path r post,
    evs = pre ++ EvMkdirAll path r :: post →
    last pre = Some (EvExists path false).
Proof.
  net_cases H version s pkg filename s1;
    intros pre ? ? ? ?; split_trace pre; done.
Qed.

(** X7. Once [CompilerFromNet] has called the extraction strategy, the
    result of the stage is the result of that call: success when it
    succeeds, and otherwise its error wrapped in a message that names the
    downloaded file. *)
Theorem extraction_decides_network_stage cacheDir version dir (s : State H) :
  let '(res, s', evs) := CompilerFromNet H cacheDir version dir s in
  ∀ pre method path d paths err post,
    evs = pre ++ EvExtract method path d paths err :: post →
    res = Done (match err with
                | Some e => Some (Wrap e ("failed to unzip package " +:+ path))
                | None => None
                end).
Proof.
  net_cases H version s pkg filename s1;
    intros pre ? ? ? ? ? ? ?; split_trace pre; done.
Qed.
End NetStage.

(** ** More about the entry point *)

Section Acquisition.
Context (H : Host).

(** The network stage reports success only after an extraction that
    succeeded, its last call. *)
Lemma CompilerFromNet_success cacheDir version dir (s : State H) s' evs :
  CompilerFromNet H cacheDir version dir s = (Done None, s', evs) →
  ∃ pre ev, evs = pre ++ [ev] ∧ isCleanExtract ev = true.
Proof.
  revert s' evs.
  assert (let '(res, s', evs) := CompilerFromNet H cacheDir version dir s in
          res = Done None → ∃ pre ev, evs = pre ++ [ev] ∧ isCleanExtract ev = true) as T.
  { net_cases H version s pkg filename s1; intros [=];
    match goal with |- ∃ pre ev, ?l = _ ∧ _ =>
      exists (removelast l), (List.last l (EvPrintf "")) end; by split. }
  intros s' evs E. rewrite E in T. by apply T.
Qed.

(** Every error of the network stage is wrapped in the message of the
    step that failed. *)
Lemma CompilerFromNet_error cacheDir version dir (s : State H) e s' evs :
  CompilerFromNet H cacheDir version dir s = (Done (Some e), s', evs) →
  ∃ cause msg, e = Wrap cause msg ∧ netSteps cacheDir dir msg.
Proof.
  revert s' evs.
  assert (let '(res, s', evs) := CompilerFromNet H cacheDir version dir s in
          res = Done (Some e) →
          ∃ cause msg, e = Wrap cause msg ∧ netSteps cacheDir dir msg) as T.
  { unfold netSteps.
    net_cases H version s pkg filename s1; intros [=]; subst; eexists _, _;
      (split; [reflexivity|]); eauto 6. }
  intros s' evs E. rewrite E in T. by apply T.
Qed.


(** The outcome of the range loop and the entries it leaves depend on
    the list it ranges over, not on the state it starts in. *)
Lemma loop_agree version r1 r2 l (s t : State H) m0 :
  maps (mem s) !! r1 = Some m0 → maps (mem t) !! r2 = Some m0 →
  match loop H version r1 l s, loop H version r2 l t with
  | (Done _, s', _), (Done _, t', _) =>
      maps (mem s') !! r1 = maps (mem t') !! r2 ∧ is_Some (maps (mem s') !! r1)
  | (Panic e, _, _), (Panic e', _, _) => e = e'
  | (Unmodelled, _, _), (Unmodelled, _, _) => True
  | _, _ => False
  end.
Proof.
  intros Hs Ht. induction l as [|[k v] l IH].
  - simpl. rewrite Hs, Ht. by eauto.
  - rewrite !loop_cons.
    destruct (loop H version r1 l s) as [[[[]|e|] s'] evs],
             (loop H version r2 l t) as [[[[]|e'|] t'] evs']; try done.
    destruct IH as [IH _].
    destruct (mustRender k version); [|done..].
    destruct (mustRender v version); [|done..].
    simpl. rewrite !lookup_insert_eq, IH. by eauto.
Qed.

Lemma entries_Some (m : Memory) r : entries m (Some r) = default ∅ (maps m !! r).
Proof. done. Qed.



(** X1. When the cache directory provider fails, [GetCompilerPackage]
    returns its error as it is, not wrapped, and calls nothing else. *)
Theorem provider_failure_is_returned_unwrapped version dir (s : State H) cacheDir e w :
  GetCacheDir H (host s) = ((cacheDir, Some e), w) →
  GetCompilerPackage H version dir s
  = (Done (Some e), {| mem := mem s; host := w |},
     [EvPrintf banner; EvGetCacheDir cacheDir (Some e)]).
Proof. intros Hdir. by rewrite GetCompilerPackage_run, Hdir. Qed.

(** X9. When the descriptor lookup of the cache stage returns an error (a
    platform outside the catalog, or a resolved locator [url.Parse]
    rejects), [GetCompilerPackage] stops there: no cache lookup, no
    directory check, no download, and the error comes back wrapped as a
    failure of the cache stage. *)
Theorem descriptor_error_stops_before_lookup version dir (s : State H)
    cacheDir w pkg filename e s1 evs1 :
  GetCacheDir H (host s) = ((cacheDir, None), w) →
  GetCompilerPackageInfo H (GOOS H) version {| mem := mem s; host := w |}
    = (Done (pkg, filename, Some e), s1, evs1) →
  GetCompilerPackage H version dir s
  = (Done (Some (Wrap e ("failed to get package " +:+ version +:+ " from cache"))),
     s1, [EvPrintf banner; EvGetCacheDir cacheDir None]).
Proof.
  intros Hdir Hinfo.
  by rewrite GetCompilerPackage_run, Hdir, CompilerFromCache_run, Hinfo.
Qed.

(** X3. [GetCompilerPackage] reports success only when its last call was
    a cache lookup that hit without error or an extraction that
    succeeded. *)
Theorem success_needs_hit_or_extraction version dir (s : State H) :
  (GetCompilerPackage H version dir s).1.1 = Done None →
  ∃ pre ev, (GetCompilerPackage H version dir s).2 = pre ++ [ev] ∧
            (isCleanHit ev = true ∨ isCleanExtract ev = true).
Proof.
  rewrite GetCompilerPackage_run.
  destruct (GetCacheDir H (host s)) as [[cacheDir [e|]] w]; [done|].
  rewrite CompilerFromCache_run.
  destruct (GetCompilerPackageInfo H (GOOS H) version _)
    as [[[[[pkg filename] [e|]]|v|] s1] evs1]; try done.
  cbv zeta. destruct (FromCache _ _ _ _ _ _ _) as [[[] [e|]] w1]; try done.
  - intros _. eexists [_; _], _. split; [reflexivity|]. by left.
  - destruct (CompilerFromNet H cacheDir version dir _) as [[[[e'|]|v|] s3] evs3] eqn:E;
      try done.
    intros _. apply CompilerFromNet_success in E as (pre & ev & -> & Hev).
    eexists (_ :: _ :: _ :: pre), ev. split; [reflexivity|]. by right.
  - destruct (CompilerFromNet H cacheDir version dir _) as [[[[e'|]|v|] s3] evs3] eqn:E;
      try done.
    intros _. apply CompilerFromNet_success in E as (pre & ev & -> & Hev).
    eexists (_ :: _ :: _ :: pre), ev. split; [reflexivity|]. by right.
Qed.

(** X2. Every error [GetCompilerPackage] returns is the error of the
    cache directory provider, or names its stage and the version: a cache
    stage error is wrapped once and no network call was made; a network
    stage error is wrapped twice, first in the message of the step that
    failed. *)
Theorem errors_name_their_stage version dir (s : State H) e :
  (GetCompilerPackage H version dir s).1.1 = Done (Some e) →
  let evs := (GetCompilerPackage H version dir s).2 in
  (∃ cacheDir, evs = [EvPrintf banner; EvGetCacheDir cacheDir (Some e)]) ∨
  (∃ cause,
     e = Wrap cause ("failed to get package " +:+ version +:+ " from cache") ∧
     Forall (λ ev, isNetwork ev = false ∧ isExtract ev = false) evs) ∨
  (∃ cause msg cacheDir,
     e = Wrap (Wrap cause msg) ("failed to get package " +:+ version +:+ " from net") ∧
     netSteps cacheDir dir msg ∧ evs !! 1 = Some (EvGetCacheDir cacheDir None)).
Proof.
  revert e. cbv zeta.
  assert (let '(res, s', evs) := GetCompilerPackage H version dir s in
    ∀ e, res = Done (Some e) →
    (∃ cacheDir, evs = [EvPrintf banner; EvGetCacheDir cacheDir (Some e)]) ∨
    (∃ cause,
       e = Wrap cause ("failed to get package " +:+ version +:+ " from cache") ∧
       Forall (λ ev, isNetwork ev = false ∧ isExtract ev = false) evs) ∨
    (∃ cause msg cacheDir,
       e = Wrap (Wrap cause msg) ("failed to get package " +:+ version +:+ " from net") ∧
       netSteps cacheDir dir msg ∧ evs !! 1 = Some (EvGetCacheDir cacheDir None))) as T;
    [|by destruct (GetCompilerPackage H version dir s) as [[? ?] ?]].
  rewrite GetCompilerPackage_run.
  destruct (GetCacheDir H (host s)) as [[cacheDir [e|]] w].
  { intros ? [= <-]. left. by exists cacheDir. }
  destruct (CompilerFromCache H cacheDir version dir _)
    as [[[[hit [e|]]|v|] s2] evs] eqn:Ecache.
  - apply CompilerFromCache_events in Ecache.
    assert (∀ e', Done (Some (Wrap e ("failed to get package " +:+ version +:+ " from cache")))
                  = Done (Some e') →
            ∃ cause, e' = Wrap cause ("failed to get package " +:+ version +:+ " from cache") ∧
              Forall (λ ev, isNetwork ev = false ∧ isExtract ev = false)
                     ([EvPrintf banner; EvGetCacheDir cacheDir None] ++ evs)) as T.
    { intros ? [= <-]. eexists. split; [done|]. repeat (constructor; [done|]).
      eapply Forall_impl; [exact Ecache|]. by intros []. }
    destruct hit; intros e' He'; right; left; by apply T.
  - destruct hit; [done|].
    destruct (CompilerFromNet H cacheDir version dir s2) as [[[[e'|]|v|] s3] evs3] eqn:E;
      try done.
    intros ? [= <-]. right. right.
    apply CompilerFromNet_error in E as (cause & msg & -> & Hmsg).
    by exists cause, msg, cacheDir.
  - done.
  - done.
Qed.

End Acquisition.

(** ** More about [GetCompilerPackageInfo] *)

Lemma htmlSafe_htmlEscaper s : htmlSafe s = true → htmlEscaper s = s.
Proof.
  unfold htmlEscaper. induction s as [|c s IH]; [done|]. simpl.
  destruct (htmlReplacementTable c); [|done]. intros Hs. by rewrite IH.
Qed.

Lemma length_app_string (a b : string) :
  String.length (a +:+ b) = String.length a + String.length b.
Proof. induction a as [|c a IH]; [done|]. simpl. by rewrite <- IH. Qed.

Lemma htmlReplacementTable_length c :
  htmlReplacementTable c = "" ∨ 2 ≤ String.length (htmlReplacementTable c).
Proof. destruct c as [[] [] [] [] [] [] [] []]; vm_compute; auto. Qed.

Lemma htmlReplacer_length s : String.length s ≤ String.length (htmlReplacer s).
Proof.
  induction s as [|c s IH]; [done|]. rewrite htmlReplacer_cons.
  rewrite length_app_string. case_decide as Hc; simpl; [lia|].
  destruct (htmlReplacementTable_length c); [done|lia].
Qed.

Lemma htmlReplacer_longer s :
  htmlSafe s = false → String.length s < String.length (htmlReplacer s).
Proof.
  induction s as [|c s IH]; [done|]. intros Hs.
  rewrite htmlReplacer_cons, length_app_string. simpl in Hs. case_decide as Hc.
  - rewrite Hc in Hs. specialize (IH Hs). simpl. lia.
  - pose proof (htmlReplacer_length s).
    destruct (htmlReplacementTable_length c); [done|]. simpl. lia.
Qed.

(** The locator a catalog template resolves to grows with what is
    substituted. *)
Lemma catalog_locator_length pkg a b :
  pkg ∈ [pawnMacOS initMemory; pawnLinux initMemory; pawnWin32 initMemory] →
  String.length a < String.length b →
  resolve (URL pkg) a ≠ resolve (URL pkg) b.
Proof.
  intros Hpkg Hlen Heq. apply (f_equal String.length) in Heq. revert Heq.
  repeat (apply elem_of_cons in Hpkg as [->|Hpkg]); [..|by apply elem_of_nil in Hpkg].
  all: repeat match goal with |- context [resolve ?t ?x] =>
         let y := eval cbv -[String.append] in (resolve t x) in
         change (resolve t x) with y
       end;
       repeat first [progress cbn [String.length] | rewrite length_app_string]; lia.
Qed.

(** Two different members of a catalog path map stay different after
    resolution, whatever is substituted: no entry of the resolved map
    overwrites another. *)
Lemma resolvePaths_size pkg e :
  pkg ∈ [pawnMacOS initMemory; pawnLinux initMemory; pawnWin32 initMemory] →
  size (resolvePaths (entries initMemory (Paths pkg)) e)
  = size (entries initMemory (Paths pkg)).
Proof.
  intros Hpkg.
  repeat (apply elem_of_cons in Hpkg as [->|Hpkg]); [..|by apply elem_of_nil in Hpkg].
  all: unfold resolvePaths;
    match goal with |- context [map_to_list ?m] =>
      let l := eval vm_compute in (map_to_list m) in
      replace (map_to_list m) with l by (vm_compute; reflexivity)
    end;
    match goal with |- _ = size ?m =>
      replace (size m) with 2 by (vm_compute; reflexivity)
    end;
    cbn [fmap list_fmap list_to_map foldr fst snd uncurry];
    repeat match goal with |- context [resolve ?t ?x] =>
      let y := eval cbv -[String.append] in (resolve t x) in
      change (resolve t x) with y
    end;
    rewrite map_size_insert_None, map_size_insert_None, map_size_empty;
      [done|apply lookup_empty|];
    rewrite lookup_insert_ne; [apply lookup_empty|];
    intros Heq; simplify_eq;
    match goal with Heq' : _ +:+ _ = _ +:+ _ |- _ => by apply (inj (String.app _)) in Heq' end.
Qed.

Section Descriptor.
Context (H : Host).

(** What a call that returns has done: it rendered the locator of the
    selected descriptor, kept its strategy and allocated the path map. *)
Lemma info_returns os version (s : State H) tmpl pkg filename err s' evs :
  selectPackage (mem s) os = Some tmpl →
  GetCompilerPackageInfo H os version s = (Done (pkg, filename, err), s', evs) →
  mustRender (URL tmpl) version = Done (URL pkg) ∧
  Method pkg = Method tmpl ∧
  Paths pkg = Some (fresh (dom (maps (mem s)))) ∧
  is_Some (maps (mem s') !! fresh (dom (maps (mem s)))).
Proof.
  intros Hsel. unfold GetCompilerPackageInfo. go_unfold. rewrite Hsel.
  destruct (mustRender (URL tmpl) version) as [url|e|]; [|done..].
  unfold make_map. simpl. rewrite map_fold_foldr.
  set (r := fresh (dom (maps (mem s)))).
  match goal with |- context [foldr ?f ?b ?l ?s1] =>
    change (foldr f b l s1) with (loop H version r l s1);
    pose proof (loop_agree H version r r l s1 s1 ∅) as A end.
  simpl in A. rewrite lookup_insert_eq in A. specialize (A eq_refl eq_refl).
  destruct (loop H version r _ _) as [[[[]|e|] s2] evs2]; [|done..].
  destruct A as [_ A].
  destruct (url_Path H url); intros [= <- <- <- <- <-]; done.
Qed.

(** X10. The descriptor [GetCompilerPackageInfo] returns for a supported
    platform keeps the extraction strategy of the catalog entry and owns a
    new map object: its reference was not allocated before the call and
    differs from the reference of every catalog entry, so writing to the
    returned path map cannot change the catalog. *)
Theorem resolved_map_is_fresh os version (s : State H) pkg filename err s' evs :
  supported os → catalogAllocated (mem s) →
  GetCompilerPackageInfo H os version s = (Done (pkg, filename, err), s', evs) →
  ∃ r tmpl,
    Paths pkg = Some r ∧ maps (mem s) !! r = None ∧ is_Some (maps (mem s') !! r) ∧
    selectPackage (mem s') os = Some tmpl ∧ Method pkg = Method tmpl ∧
    Forall (λ c, Paths c ≠ Paths pkg)
           [pawnMacOS (mem s'); pawnLinux (mem s'); pawnWin32 (mem s')].
Proof.
  intros Hos (Hmac & Hlin & Hwin) E.
  destruct (selectPackage_Some (mem s) os Hos) as [tmpl Hsel].
  destruct (info_returns _ _ _ _ _ _ _ _ _ Hsel E) as (_ & HM & HP & Hnew).
  pose proof (info_frame _ _ _ _ _ _ _ E) as (_ & _ & Emac & Elin & Ewin & _).
  assert (maps (mem s) !! fresh (dom (maps (mem s))) = None) as Hfresh.
  { apply not_elem_of_dom, is_fresh. }
  exists (fresh (dom (maps (mem s)))), tmpl. repeat split; try done.
  - unfold selectPackage in *. by rewrite Emac, Elin, Ewin.
  - rewrite Emac, Elin, Ewin, HP.
    repeat constructor; intros Hc;
      [apply Hmac in Hc|apply Hlin in Hc|apply Hwin in Hc];
      rewrite Hfresh in Hc; by destruct Hc.
Qed.

(** X13. When [url.Parse] rejects the resolved locator,
    [GetCompilerPackageInfo] returns that error with an empty file name and
    with the descriptor already resolved: locator, strategy and path map
    are those of a successful call. *)
Theorem url_failure_returns_resolved_descriptor os version (s : State H) tmpl e :
  catalogIntact (mem s) → selectPackage (mem s) os = Some tmpl →
  url_Path H (resolve (URL tmpl) (htmlEscaper version)) = inl e →
  ∃ pkg s',
    GetCompilerPackageInfo H os version s = (Done (pkg, "", Some e), s', []) ∧
    URL pkg = resolve (URL tmpl) (htmlEscaper version) ∧
    Method pkg = Method tmpl ∧
    entries (mem s') (Paths pkg)
      = resolvePaths (entries (mem s) (Paths tmpl)) (htmlEscaper version).
Proof.
  intros Hint Hsel Hurl.
  destruct (info_catalog H os version s tmpl Hint Hsel) as (s' & E & Hm).
  cbv zeta in E, Hm. rewrite Hurl in E. by eexists _, s'.
Qed.

(** X12. On an intact catalog and a supported platform, the locator
    [GetCompilerPackageInfo] returns is the template with the placeholder
    literally replaced by the version exactly when no byte of the version
    is one the HTML escaper replaces; for such a version the path map is
    the literal replacement as well. *)
Theorem literal_substitution_iff_safe os version (s : State H) :
  catalogIntact (mem s) → supported os →
  ∃ tmpl pkg filename err s',
    selectPackage (mem s) os = Some tmpl ∧
    GetCompilerPackageInfo H os version s = (Done (pkg, filename, err), s', []) ∧
    (URL pkg = resolve (URL tmpl) version ↔ htmlSafe version = true) ∧
    (htmlSafe version = true →
     entries (mem s') (Paths pkg) = resolvePaths (entries (mem s) (Paths tmpl)) version).
Proof.
  intros Hint Hos.
  destruct (selectPackage_Some (mem s) os Hos) as [tmpl Hsel].
  destruct (info_catalog H os version s tmpl Hint Hsel) as (s' & E & Hm).
  cbv zeta in E, Hm.
  assert (tmpl ∈ [pawnMacOS initMemory; pawnLinux initMemory; pawnWin32 initMemory])
    as Htmpl.
  { destruct Hint as [_ Hview]. unfold catalogView, entryView in Hview.
    injection Hview as Hmac _ Hlin _ Hwin _.
    apply selectPackage_elem in Hsel. by rewrite Hmac, Hlin, Hwin in Hsel. }
  assert (resolve (URL tmpl) (htmlEscaper version) = resolve (URL tmpl) version
          ↔ htmlSafe version = true) as Hiff.
  { split.
    - intros Heq. destruct (htmlSafe version) eqn:Hs; [done|]. exfalso.
      by eapply (catalog_locator_length tmpl version (htmlEscaper version)
                   Htmpl (htmlReplacer_longer _ Hs)).
    - intros Hs. by rewrite htmlSafe_htmlEscaper. }
  destruct (url_Path H (resolve (URL tmpl) (htmlEscaper version)));
    eexists tmpl, _, _, _, s'; (split; [done|]); (split; [exact E|]);
    (split; [exact Hiff|]); intros Hs; cbn [Paths]; rewrite Hm;
    by rewrite htmlSafe_htmlEscaper.
Qed.
(** X11. On an intact catalog and a supported platform the path map
    [GetCompilerPackageInfo] returns has as many entries as the path map
    of the catalog entry, whatever the version: no two resolved keys
    collide, so no entry is lost when the loop of lines 103-112 writes
    them into the new map. *)
Theorem resolved_paths_keep_their_entries os version (s : State H) :
  catalogIntact (mem s) → supported os →
  ∃ tmpl pkg filename err s',
    selectPackage (mem s) os = Some tmpl ∧
    GetCompilerPackageInfo H os version s = (Done (pkg, filename, err), s', []) ∧
    size (entries (mem s') (Paths pkg)) = size (entries (mem s) (Paths tmpl)) ∧
    size (entries (mem s') (Paths pkg)) = 2.
Proof.
  intros Hint Hos.
  destruct (selectPackage_Some (mem s) os Hos) as [tmpl Hsel].
  destruct (info_catalog H os version s tmpl Hint Hsel) as (s' & E & Hm).
  cbv zeta in E, Hm.
  assert (∃ c, c ∈ [pawnMacOS initMemory; pawnLinux initMemory; pawnWin32 initMemory] ∧
               entries (mem s) (Paths tmpl) = entries initMemory (Paths c)) as (c & Hc & Hes).
  { destruct Hint as [_ Hview]. unfold catalogView, entryView in Hview.
    injection Hview as Hmac Emac Hlin Elin Hwin Ewin.
    apply selectPackage_elem in Hsel.
    repeat (apply elem_of_cons in Hsel as [->|Hsel]); [..|by apply elem_of_nil in Hsel].
    - exists (pawnMacOS initMemory). split; [apply list_elem_of_here|exact Emac].
    - exists (pawnLinux initMemory).
      split; [apply list_elem_of_further, list_elem_of_here|exact Elin].
    - exists (pawnWin32 initMemory).
      split; [do 2 apply list_elem_of_further; apply list_elem_of_here|exact Ewin]. }
  assert (size (resolvePaths (entries (mem s) (Paths tmpl)) (htmlEscaper version))
          = size (entries (mem s) (Paths tmpl))) as Hsize.
  { rewrite Hes. by apply resolvePaths_size. }
  assert (size (entries (mem s) (Paths tmpl)) = 2) as Htwo.
  { rewrite Hes. clear -Hc.
    repeat (apply elem_of_cons in Hc as [->|Hc]); [..|by apply elem_of_nil in Hc];
      vm_compute; reflexivity. }
  rewrite <- Hm in Hsize.
  destruct (url_Path H (resolve (URL tmpl) (htmlEscaper version)));
    eexists tmpl, _, _, _, s'; (split; [done|]); (split; [exact E|]);
    cbn [Paths]; rewrite Hsize; done.
Qed.
End Descriptor.

(** * Properties of the project initialisation *)

(** ** Extensions and the package description *)

Lemma Ext_app_pwn x : Rook.Ext (x +:+ ".pwn") = ".pwn".
Proof.
  induction x as [|c x IH]; [done|].
  change (String c x +:+ ".pwn") with (String c (x +:+ ".pwn")).
  cbn [Rook.Ext]. by rewrite IH.
Qed.

Lemma Ext_app_amx x : Rook.Ext (x +:+ ".amx") = ".amx".
Proof.
  induction x as [|c x IH]; [done|].
  change (String c x +:+ ".amx") with (String c (x +:+ ".amx")).
  cbn [Rook.Ext]. by rewrite IH.
Qed.

Lemma app_empty_r (s : string) : s +:+ "" = s.
Proof. induction s as [|c s IH]; [done|]. simpl. by rewrite <- IH at 2. Qed.

(** The extension of a path is a suffix of the path. *)
Lemma Ext_suffix s : ∃ stem, s = stem +:+ Rook.Ext s.
Proof.
  induction s as [|c s [stem IH]]; [by exists ""|]. cbn [Rook.Ext].
  destruct (Rook.Ext s) as [|d ext] eqn:E.
  - destruct (Ascii.eqb c "." && negb (Rook.hasSlash s)).
    + by exists "".
    + exists (String c s). by rewrite app_empty_r.
  - exists (String c stem).
    change (String c stem +:+ String d ext) with (String c (stem +:+ String d ext)).
    by rewrite <- IH.
Qed.

Lemma HasSuffix_app stem e : Rook.HasSuffix (stem +:+ e) e = true.
Proof.
  induction stem as [|c stem IH].
  - destruct e; simpl; by rewrite ?Ascii.eqb_refl, ?String.eqb_refl.
  - change (String c stem +:+ e) with (String c (stem +:+ e)).
    cbn [Rook.HasSuffix]. rewrite IH. apply orb_true_r.
Qed.

Lemma substring_app stem e :
  String.substring 0 (String.length stem) (stem +:+ e) = stem.
Proof.
  induction stem as [|c stem IH]; [by destruct e|]. simpl. by rewrite IH.
Qed.

(** Trimming the suffix that was appended gives the stem back. *)
Lemma TrimSuffix_app stem e : Rook.TrimSuffix (stem +:+ e) e = stem.
Proof.
  unfold Rook.TrimSuffix. rewrite HasSuffix_app, length_app_string.
  replace (String.length stem + String.length e - String.length e)
    with (String.length stem) by lia.
  apply substring_app.
Qed.

(** X14. Whatever the answers, the package [Init] describes has an entry
    point with extension [.pwn] and an output with extension [.amx], and
    the two differ in the extension only. *)
Theorem entry_and_output_share_a_stem base dir a :
  let pkg := (Rook.describe base dir a).1.1 in
  Rook.Ext (Rook.PkgEntry pkg) = ".pwn" ∧
  Rook.Ext (Rook.PkgOutput pkg) = ".amx" ∧
  ∃ stem, Rook.PkgEntry pkg = stem +:+ ".pwn" ∧ Rook.PkgOutput pkg = stem +:+ ".amx".
Proof.
  unfold Rook.describe. destruct (negb (String.eqb (Rook.Entry a) "")); simpl.
  - rewrite Ext_app_pwn, Ext_app_amx. eauto.
  - repeat split. by exists "test".
Qed.

(** X15. When an entry point was answered, its extension is cut off and
    replaced: entry and output keep the stem of the answer, an answer that
    ends in [.pwn] is kept as it is, the three warnings are printed exactly
    when the answer has an extension other than [.pwn], and no test script
    is generated. *)
Theorem answer_keeps_its_stem base dir a :
  Rook.Entry a ≠ "" →
  let '(pkg, warns, script) := Rook.describe base dir a in
  ∃ stem,
    Rook.Entry a = stem +:+ Rook.Ext (Rook.Entry a) ∧
    Rook.PkgEntry pkg = stem +:+ ".pwn" ∧
    Rook.PkgOutput pkg = stem +:+ ".amx" ∧
    (Rook.Ext (Rook.Entry a) = ".pwn" → Rook.PkgEntry pkg = Rook.Entry a) ∧
    (warns = true ↔ Rook.Ext (Rook.Entry a) ≠ "" ∧ Rook.Ext (Rook.Entry a) ≠ ".pwn") ∧
    script = None.
Proof.
  intros Hne. unfold Rook.describe.
  apply String.eqb_neq in Hne. rewrite Hne. simpl.
  destruct (Ext_suffix (Rook.Entry a)) as [stem Hstem].
  remember (Rook.Ext (Rook.Entry a)) as ext eqn:Hext. clear Hext.
  exists stem. rewrite Hstem, TrimSuffix_app.
  split; [done|]. split; [done|]. split; [done|].
  split; [by intros ->|]. split; [|done]. split.
  - intros [H1 H2]%andb_prop.
    apply negb_true_iff, String.eqb_neq in H1, H2. by split.
  - intros [H1 H2]. apply andb_true_intro.
    split; by apply negb_true_iff, String.eqb_neq.
Qed.

(** ** The walk over the project directory *)

Lemma picked_cons ext entry found :
  Rook.picked ext (entry :: found)
  = (if Rook.hasExt ext entry then [entry.1] else []) ++ Rook.picked ext found.
Proof. unfold Rook.picked. simpl. by destruct (Rook.hasExt ext entry). Qed.

Lemma picked_app ext pre post :
  Rook.picked ext (pre ++ post) = Rook.picked ext pre ++ Rook.picked ext post.
Proof. unfold Rook.picked. by rewrite List.filter_app, fmap_app. Qed.

(** A walk whose entries all have a [FileInfo] and a relative path. *)
Lemma Walk_app rel dir f pre rest files :
  (∀ q i, (q, i) ∈ pre → i ≠ None) →
  (∀ q, (q, Some false) ∈ pre → rel dir q = inr (f q)) →
  Rook.Walk rel dir (pre ++ rest) files
  = Rook.Walk rel dir rest
      (files.1 ++ (f <$> Rook.picked ".pwn" pre),
       files.2 ++ (f <$> Rook.picked ".inc" pre)).
Proof.
  revert files. induction pre as [|[q i] pre IH]; intros files Hinfo Hrel.
  { simpl. rewrite !app_nil_r. by destruct files. }
  cbn [app Rook.Walk].
  assert (∀ q i, (q, i) ∈ pre → i ≠ None) as Hinfo'.
  { intros ? ? ?. eapply Hinfo. by apply list_elem_of_further. }
  assert (∀ q, (q, Some false) ∈ pre → rel dir q = inr (f q)) as Hrel'.
  { intros ? ?. apply Hrel. by apply list_elem_of_further. }
  rewrite !picked_cons. unfold Rook.hasExt. cbn [fst snd].
  destruct i as [[]|]; cbn [Rook.visit].
  - by rewrite IH.
  - rewrite (Hrel q) by apply list_elem_of_here.
    destruct (String.eqb (Rook.Ext q) ".pwn") eqn:Epwn.
    + apply String.eqb_eq in Epwn. rewrite Epwn. cbn [String.eqb Ascii.eqb Bool.eqb].
      rewrite IH by done. cbn [fst snd app fmap list_fmap]. by rewrite <- !app_assoc.
    + destruct (String.eqb (Rook.Ext q) ".inc") eqn:Einc.
      * rewrite IH by done. cbn [fst snd app fmap list_fmap]. by rewrite <- !app_assoc.
      * by rewrite IH.
  - by destruct (Hinfo q None (list_elem_of_here _ _)).
Qed.

(** X16. When every entry of the walk has a [FileInfo] and a relative
    path, the walk succeeds and appends to the two lists the relative
    paths of the regular files with extension [.pwn] and [.inc], in the
    order of the walk; directories and other files are not listed. *)
Theorem walk_classifies_regular_files rel dir f found files :
  (∀ q i, (q, i) ∈ found → i ≠ None) →
  (∀ q, (q, Some false) ∈ found → rel dir q = inr (f q)) →
  Rook.Walk rel dir found files
  = Done (None, (files.1 ++ (f <$> Rook.picked ".pwn" found),
                 files.2 ++ (f <$> Rook.picked ".inc" found))).
Proof.
  intros Hinfo Hrel.
  rewrite <- (app_nil_r found) at 1. by rewrite (Walk_app rel dir f).
Qed.

(** X17. The walk stops at the first regular file for which
    [filepath.Rel] fails, whatever the extension of that file: the error
    is the result, and the lists hold what was found before it. *)
Theorem walk_stops_at_first_failure rel dir f pre q post files e :
  (∀ q i, (q, i) ∈ pre → i ≠ None) →
  (∀ q, (q, Some false) ∈ pre → rel dir q = inr (f q)) →
  rel dir q = inl e →
  Rook.Walk rel dir (pre ++ (q, Some false) :: post) files
  = Done (Some e, (files.1 ++ (f <$> Rook.picked ".pwn" pre),
                   files.2 ++ (f <$> Rook.picked ".inc" pre))).
Proof.
  intros Hinfo Hrel Hq. rewrite (Walk_app rel dir f) by done.
  cbn [Rook.Walk Rook.visit]. by rewrite Hq.
Qed.

(** X18. The question about the entry point follows the walk: a choice
    among the [.pwn] files when the walk met one; the question named
    [EntryGenerate] exactly when it met no [.pwn] file but an [.inc] file;
    and the free-text question, the only one that is not required, exactly
    when it met neither. *)
Theorem entry_question_follows_the_walk rel dir f found :
  (∀ q i, (q, i) ∈ found → i ≠ None) →
  (∀ q, (q, Some false) ∈ found → rel dir q = inr (f q)) →
  ∃ pwnFiles incFiles,
    Rook.Walk rel dir found ([], []) = Done (None, (pwnFiles, incFiles)) ∧
    let question := Rook.entryQuestion pwnFiles incFiles in
    (Rook.Ask question = Rook.Select pwnFiles ↔ Rook.picked ".pwn" found ≠ []) ∧
    (Rook.Name question = "EntryGenerate" ↔
       Rook.picked ".pwn" found = [] ∧ Rook.picked ".inc" found ≠ []) ∧
    (Rook.Required question = false ↔
       Rook.picked ".pwn" found = [] ∧ Rook.picked ".inc" found = []).
Proof.
  intros Hinfo Hrel. eexists _, _.
  split; [rewrite <- (app_nil_r found) at 1; by rewrite (Walk_app rel dir f)|].
  cbn [fst snd app]. unfold Rook.entryQuestion. rewrite !length_fmap.
  destruct (Rook.picked ".pwn" found) as [|p ps];
    destruct (Rook.picked ".inc" found) as [|i incs]; simpl; intuition congruence.
Qed.

(** ** Fetching a template file *)

Lemma init_prefix_differs (s : string) : "init-" +:+ s ≠ s.
Proof.
  intros Heq. apply (f_equal String.length) in Heq.
  rewrite length_app_string in Heq. simpl in Heq. lia.
Qed.

(** Every path through [getTemplateFile], by the results of its calls. *)
Ltac template_cases W dir filename d :=
  unfold Rook.getTemplateFile;
  destruct (Rook.http_Get W (Rook.templateRoot +:+ filename) d) as [[?|] ?] eqn:?;
  [|destruct (Rook.util_Exists W (Rook.filepath_Join W dir filename) _) eqn:?;
    (match goal with |- context [Rook.os_MkdirAll W ?p ?x] =>
       destruct (Rook.os_MkdirAll W p x) as [[?|] ?] eqn:? end;
     [|match goal with |- context [Rook.os_Create W ?p ?x] =>
         destruct (Rook.os_Create W p x) as [[?|] ?] eqn:? end;
       [|match goal with |- context [Rook.io_Copy W ?p ?x] =>
           destruct (Rook.io_Copy W p x) as [[?|] ?] eqn:? end;
         match goal with |- context [Rook.file_Close W ?p ?x] =>
           destruct (Rook.file_Close W p x) as [[?|] ?] eqn:? end]])];
  cbn [app].

Ltac members Hc :=
  repeat (apply elem_of_cons in Hc as [Hc|Hc]; [try discriminate Hc|]);
  try (by apply elem_of_nil in Hc).

Ltac split_calls pre :=
  repeat (destruct pre as [|? pre]; simplify_eq/=).

Ltac member :=
  repeat first [apply list_elem_of_here | apply list_elem_of_further].

Ltac absent :=
  let Hc := fresh in
  intros Hc; repeat (apply elem_of_cons in Hc as [Hc|Hc]; [discriminate Hc|]);
  by apply elem_of_nil in Hc.

Ltac earlier :=
  apply Exists_exists; repeat first [by apply Exists_cons_hd | apply Exists_cons_tl].

Section Template.
Context (W : Rook.Web).

(** X19. When the target of [getTemplateFile] exists already, the
    function never creates or writes it: every path it creates or copies
    to is the joined path with [init-] in front (of the whole path, not of
    the file name), which differs from the target. *)
Theorem existing_target_is_never_written dir filename d d1 c path :
  Rook.http_Get W (Rook.templateRoot +:+ filename) d = (None, d1) →
  Rook.util_Exists W (Rook.filepath_Join W dir filename) d1 = true →
  c ∈ (Rook.getTemplateFile W dir filename d).2 →
  Rook.writes c = Some path →
  path = "init-" +:+ Rook.filepath_Join W dir filename ∧
  path ≠ Rook.filepath_Join W dir filename.
Proof.
  intros Hget Hex. revert c path.
  assert (∀ c path,
    c ∈ (Rook.getTemplateFile W dir filename d).2 → Rook.writes c = Some path →
    path = "init-" +:+ Rook.filepath_Join W dir filename) as Hpath.
  { unfold Rook.getTemplateFile. rewrite Hget, Hex.
    destruct (Rook.os_MkdirAll W _ d1) as [[?|] d2].
    2: destruct (Rook.os_Create W _ d2) as [[?|] d3].
    3: destruct (Rook.io_Copy W _ d3) as [? d4];
       destruct (Rook.file_Close W _ d4) as [[?|] d5].
    all: intros c path Hc Hw; cbn [snd app] in Hc; members Hc; subst c;
      by simplify_eq/=. }
  intros c path Hc Hw. rewrite (Hpath c path Hc Hw).
  split; [done|apply init_prefix_differs].
Qed.

(** X20. Once the file was created, the result of [getTemplateFile] is
    the result of closing it: the deferred function assigns to the named
    result, so an error of [io.Copy] is returned only if closing fails too,
    and then it is the closing error. Every file copied to is closed. *)
Theorem close_result_is_returned dir filename d :
  let '(res, d', calls) := Rook.getTemplateFile W dir filename d in
  (∀ path ce, Rook.CClose path ce ∈ calls → res = ce) ∧
  (∀ path ce, Rook.CCopy path ce ∈ calls → ∃ ce', Rook.CClose path ce' ∈ calls).
Proof.
  template_cases W dir filename d;
    (split; intros path ce Hc; [members Hc; by simplify_eq|]);
    members Hc; simplify_eq; eexists; member.
Qed.

(** X21. An error of [http.Get], [os.MkdirAll] or [os.Create] is
    returned as it is; after it only the response body is closed (nothing
    at all after a failed request), and no file was created or written. *)
Theorem early_errors_are_returned dir filename d :
  let '(res, d', calls) := Rook.getTemplateFile W dir filename d in
  ∀ pre c post e,
    calls = pre ++ c :: post →
    (∃ url, c = Rook.CGet url (Some e)) ∨
    (∃ path, c = Rook.CMkdirAll path (Some e)) ∨
    (∃ path, c = Rook.CCreate path (Some e)) →
    res = Some e ∧ (post = [] ∨ post = [Rook.CBodyClose]) ∧
    Forall (λ c', Rook.isCreated c' = false ∧ Rook.isCopy c' = false) calls.
Proof.
  template_cases W dir filename d; intros pre c post err Heq Hkind;
    split_calls pre; destruct Hkind as [[? ?]|[[? ?]|[? ?]]]; simplify_eq;
    (split; [done|split; [auto|repeat constructor]]).
Qed.

(** X22. The response body is closed exactly once, as the last call,
    on every path through [getTemplateFile] on which the request
    succeeded, and never when the request failed. *)
Theorem response_body_is_closed_once dir filename d :
  let '(res, d', calls) := Rook.getTemplateFile W dir filename d in
  match (Rook.http_Get W (Rook.templateRoot +:+ filename) d).1 with
  | Some e => Rook.CBodyClose ∉ calls
  | None => ∃ pre, calls = pre ++ [Rook.CBodyClose] ∧ Rook.CBodyClose ∉ pre
  end.
Proof.
  template_cases W dir filename d; cbn [fst].
  1: absent.
  all: match goal with |- ∃ pre, ?l = _ ∧ _ =>
         exists (removelast l); split; [done|cbn; absent] end.
Qed.

(** X23. In [getTemplateFile] a file is created only after its
    directory was made, and copied to only after it was created; a file
    that was created is closed afterwards, also when the copy failed, and
    only a created file is closed, once. *)
Theorem file_lifecycle dir filename d :
  let '(res, d', calls) := Rook.getTemplateFile W dir filename d in
  Rook.precedes Rook.isMade Rook.isCreated calls ∧
  Rook.precedes Rook.isCreated Rook.isCopy calls ∧
  (∀ pre path post, calls = pre ++ Rook.CCreate path None :: post →
     ∃ ce, Rook.CClose path ce ∈ post) ∧
  (∀ pre path ce post, calls = pre ++ Rook.CClose path ce :: post →
     Rook.CCreate path None ∈ pre ∧ ∀ path' ce', Rook.CClose path' ce' ∉ post).
Proof.
  template_cases W dir filename d.
  all: split; [intros pre c post Heq HQ; split_calls pre; earlier|].
  all: split; [intros pre c post Heq HQ; split_calls pre; earlier|].
  all: split; [intros pre path post Heq; split_calls pre; eexists; member|].
  all: intros pre path ce post Heq; split_calls pre; (split; [member|intros ? ?; absent]).
Qed.
End Template.

(** ** The further properties on concrete machines *)

Lemma freebsd_unsupported : ¬ supported "freebsd".
Proof. by intros [?|[?|?]]. Qed.

Lemma linux_supported : supported "linux".
Proof. right. by left. Qed.

Lemma provider_failure_is_returned_unwrapped_witness :
  GetCompilerPackage Strict.homeless "3.10.4" "/opt/pawn"
    (Sim.start Strict.homeless Sim.emptyDisk)
  = (Done (Some (Errorf "user: Current not implemented")),
     Sim.start Strict.homeless Sim.emptyDisk,
     [EvPrintf banner; EvGetCacheDir "" (Some (Errorf "user: Current not implemented"))]).
Proof.
  exact (provider_failure_is_returned_unwrapped Strict.homeless "3.10.4" "/opt/pawn"
           (Sim.start Strict.homeless Sim.emptyDisk) ""
           (Errorf "user: Current not implemented") Sim.emptyDisk eq_refl).
Defined.

Lemma descriptor_error_stops_before_lookup_witness :
  GetCompilerPackage Sim.freebsd "3.10.4" "/opt/pawn" (Sim.start Sim.freebsd Sim.warmDisk)
  = (Done (Some (Wrap (Errorf ("unsupported OS " +:+ GOOS Sim.freebsd))
                      ("failed to get package " +:+ "3.10.4" +:+ " from cache"))),
     Sim.start Sim.freebsd Sim.warmDisk,
     [EvPrintf banner; EvGetCacheDir Sim.cacheDir None]).
Proof.
  exact (descriptor_error_stops_before_lookup Sim.freebsd "3.10.4" "/opt/pawn"
           (Sim.start Sim.freebsd Sim.warmDisk) Sim.cacheDir Sim.warmDisk
           zeroPackage "" _ _ [] eq_refl
           (info_unsupported Sim.freebsd "freebsd" "3.10.4"
              (Sim.start Sim.freebsd Sim.warmDisk) freebsd_unsupported)).
Defined.

Lemma success_needs_hit_or_extraction_witness :
  let run := GetCompilerPackage Sim.linux "3.10.4" "/opt/pawn"
               (Sim.start Sim.linux Sim.emptyDisk) in
  run.1.1 = Done None ∧
  ∃ pre ev, run.2 = pre ++ [ev] ∧ (isCleanHit ev = true ∨ isCleanExtract ev = true).
Proof.
  assert ((GetCompilerPackage Sim.linux "3.10.4" "/opt/pawn"
             (Sim.start Sim.linux Sim.emptyDisk)).1.1 = Done None) as Hrun
    by (vm_compute; reflexivity).
  split; [exact Hrun|].
  exact (success_needs_hit_or_extraction Sim.linux "3.10.4" "/opt/pawn"
           (Sim.start Sim.linux Sim.emptyDisk) Hrun).
Defined.

Lemma errors_name_their_stage_witness :
  let run := GetCompilerPackage Sim.offline "3.10.4" "/opt/pawn"
               (Sim.start Sim.offline Sim.emptyDisk) in
  run.1.1 = Done (Some (Wrap (Wrap (Errorf "dial tcp: network is unreachable")
                                   "failed to download package")
                             "failed to get package 3.10.4 from net")) ∧
  ((∃ cacheDir, run.2 = [EvPrintf banner; EvGetCacheDir cacheDir
       (Some (Wrap (Wrap (Errorf "dial tcp: network is unreachable")
                         "failed to download package")
                   "failed to get package 3.10.4 from net"))]) ∨
   (∃ cause,
      Wrap (Wrap (Errorf "dial tcp: network is unreachable") "failed to download package")
           "failed to get package 3.10.4 from net"
      = Wrap cause ("failed to get package " +:+ "3.10.4" +:+ " from cache") ∧
      Forall (λ ev, isNetwork ev = false ∧ isExtract ev = false) run.2) ∨
   (∃ cause msg cacheDir,
      Wrap (Wrap (Errorf "dial tcp: network is unreachable") "failed to download package")
           "failed to get package 3.10.4 from net"
      = Wrap (Wrap cause msg) ("failed to get package " +:+ "3.10.4" +:+ " from net") ∧
      netSteps cacheDir "/opt/pawn" msg ∧ run.2 !! 1 = Some (EvGetCacheDir cacheDir None))).
Proof.
  assert ((GetCompilerPackage Sim.offline "3.10.4" "/opt/pawn"
             (Sim.start Sim.offline Sim.emptyDisk)).1.1
          = Done (Some (Wrap (Wrap (Errorf "dial tcp: network is unreachable")
                                   "failed to download package")
                             "failed to get package 3.10.4 from net"))) as Hrun
    by (vm_compute; reflexivity).
  split; [exact Hrun|].
  exact (errors_name_their_stage Sim.offline "3.10.4" "/opt/pawn"
           (Sim.start Sim.offline Sim.emptyDisk) _ Hrun).
Defined.


Lemma resolved_map_is_fresh_witness :
  ∃ pkg (s1 : State Sim.linux) r tmpl,
    Paths pkg = Some r ∧ maps initMemory !! r = None ∧ is_Some (maps (mem s1) !! r) ∧
    selectPackage (mem s1) "linux" = Some tmpl ∧ Method pkg = Method tmpl ∧
    Forall (λ c, Paths c ≠ Paths pkg)
           [pawnMacOS (mem s1); pawnLinux (mem s1); pawnWin32 (mem s1)].
Proof.
  destruct (sim_info Sim.honest None "3.10.4" Sim.emptyDisk) as (pkg & s1 & E & _).
  destruct (resolved_map_is_fresh (Sim.machine "linux" Sim.honest None) "linux" "3.10.4"
              (Sim.start (Sim.machine "linux" Sim.honest None) Sim.emptyDisk)
              pkg _ None s1 [] linux_supported catalogAllocated_init E)
    as (r & tmpl & T).
  exists pkg, s1, r, tmpl. exact T.
Defined.

Lemma resolved_paths_keep_their_entries_witness :
  ∃ tmpl pkg filename err s',
    selectPackage (mem (Sim.start Sim.linux Sim.emptyDisk)) "linux" = Some tmpl ∧
    GetCompilerPackageInfo Sim.linux "linux" "3.10.4+rc1" (Sim.start Sim.linux Sim.emptyDisk)
      = (Done (pkg, filename, err), s', []) ∧
    size (entries (mem s') (Paths pkg))
      = size (entries (mem (Sim.start Sim.linux Sim.emptyDisk)) (Paths tmpl)) ∧
    size (entries (mem s') (Paths pkg)) = 2.
Proof.
  exact (resolved_paths_keep_their_entries Sim.linux "linux" "3.10.4+rc1"
           (Sim.start Sim.linux Sim.emptyDisk) catalogIntact_init linux_supported).
Defined.

Lemma literal_substitution_iff_safe_witness :
  ∃ tmpl pkg filename err s',
    selectPackage (mem (Sim.start Sim.linux Sim.emptyDisk)) "linux" = Some tmpl ∧
    GetCompilerPackageInfo Sim.linux "linux" "3.10.4+rc1" (Sim.start Sim.linux Sim.emptyDisk)
      = (Done (pkg, filename, err), s', []) ∧
    (URL pkg = resolve (URL tmpl) "3.10.4+rc1" ↔ htmlSafe "3.10.4+rc1" = true) ∧
    (htmlSafe "3.10.4+rc1" = true →
     entries (mem s') (Paths pkg)
     = resolvePaths (entries (mem (Sim.start Sim.linux Sim.emptyDisk)) (Paths tmpl))
         "3.10.4+rc1").
Proof.
  exact (literal_substitution_iff_safe Sim.linux "linux" "3.10.4+rc1"
           (Sim.start Sim.linux Sim.emptyDisk) catalogIntact_init linux_supported).
Defined.

Lemma strict_url_Path goos u : url_Path (Strict.machine goos) u = Strict.urlPath u.
Proof. reflexivity. Qed.

Lemma newline_is_rejected :
  Strict.urlPath (resolve (URL (pawnLinux initMemory)) (htmlEscaper Strict.versionWithNewline))
  = inl (Errorf "net/url: invalid control character in URL").
Proof. vm_compute; reflexivity. Qed.

Lemma url_failure_returns_resolved_descriptor_witness :
  ∃ pkg s',
    GetCompilerPackageInfo (Strict.machine "linux") "linux" Strict.versionWithNewline
      (Sim.start (Strict.machine "linux") Sim.emptyDisk)
    = (Done (pkg, "", Some (Errorf "net/url: invalid control character in URL")), s', []) ∧
    URL pkg = resolve (URL (pawnLinux initMemory)) (htmlEscaper Strict.versionWithNewline) ∧
    Method pkg = Method (pawnLinux initMemory) ∧
    entries (mem s') (Paths pkg)
    = resolvePaths (entries (mem (Sim.start (Strict.machine "linux") Sim.emptyDisk))
                      (Paths (pawnLinux initMemory)))
        (htmlEscaper Strict.versionWithNewline).
Proof.
  exact (url_failure_returns_resolved_descriptor (Strict.machine "linux") "linux"
           Strict.versionWithNewline (Sim.start (Strict.machine "linux") Sim.emptyDisk)
           (pawnLinux initMemory) _ catalogIntact_init eq_refl
           (eq_trans (strict_url_Path "linux" _) newline_is_rejected)).
Defined.

(** ** Project initialisation on concrete inputs *)

Lemma answer_keeps_its_stem_witness :
  Rook.Entry Rook.libraryAnswers ≠ "" ∧
  let '(pkg, warns, script) := Rook.describe Sim.base "proj" Rook.libraryAnswers in
  ∃ stem,
    Rook.Entry Rook.libraryAnswers = stem +:+ Rook.Ext (Rook.Entry Rook.libraryAnswers) ∧
    Rook.PkgEntry pkg = stem +:+ ".pwn" ∧
    Rook.PkgOutput pkg = stem +:+ ".amx" ∧
    (Rook.Ext (Rook.Entry Rook.libraryAnswers) = ".pwn" →
     Rook.PkgEntry pkg = Rook.Entry Rook.libraryAnswers) ∧
    (warns = true ↔ Rook.Ext (Rook.Entry Rook.libraryAnswers) ≠ "" ∧
                    Rook.Ext (Rook.Entry Rook.libraryAnswers) ≠ ".pwn") ∧
    script = None.
Proof.
  assert (Rook.Entry Rook.libraryAnswers ≠ "") as Hne by discriminate.
  split; [exact Hne|].
  exact (answer_keeps_its_stem Sim.base "proj" Rook.libraryAnswers Hne).
Defined.

(** The description of those answers: the include file is replaced by a
    script of the same stem, and the warnings are printed. *)
Example library_entry_is_renamed :
  let '(pkg, warns, script) := Rook.describe Sim.base "proj" Rook.libraryAnswers in
  Rook.PkgEntry pkg = "src/formatex.pwn" ∧ Rook.PkgOutput pkg = "src/formatex.amx" ∧
  warns = true ∧ Rook.Dependencies pkg = ["sampctl/samp-stdlib"].
Proof. vm_compute. by repeat split. Qed.

Lemma tree_infos (found : list (string * option bool)) :
  forallb (λ entry, match entry.2 with Some _ => true | None => false end) found = true →
  ∀ q i, (q, i) ∈ found → i ≠ None.
Proof.
  intros Hall q i Hin ->. rewrite forallb_forall in Hall.
  by apply list_elem_of_In, Hall in Hin.
Qed.

Lemma tree_rel dir (found : list (string * option bool)) :
  forallb (λ entry, match entry.2 with
                    | Some false => HasPrefix entry.1 (dir +:+ "/")
                    | _ => true
                    end) found = true →
  ∀ q, (q, Some false) ∈ found →
       Rook.Rel dir q
       = inr (String.substring (String.length dir + 1) (String.length q) q).
Proof.
  intros Hall q Hin. rewrite forallb_forall in Hall.
  apply list_elem_of_In, Hall in Hin. unfold Rook.Rel. simpl in Hin. by rewrite Hin.
Qed.

Lemma walk_classifies_regular_files_witness :
  Rook.Walk Rook.Rel "proj" Rook.sampleTree ([], [])
  = Done (None, (["gamemodes/main.pwn"], ["lib.inc"])).
Proof.
  exact (walk_classifies_regular_files Rook.Rel "proj"
           (λ q, String.substring (String.length "proj" + 1) (String.length q) q)
           Rook.sampleTree ([], [])
           (tree_infos Rook.sampleTree eq_refl)
           (tree_rel "proj" Rook.sampleTree eq_refl)).
Defined.

Lemma walk_stops_at_first_failure_witness :
  Rook.Walk Rook.Rel "proj" Rook.strayTree ([], [])
  = Done (Some (Errorf "Rel: can't make elsewhere/notes.txt relative to proj"),
          ([], ["lib.inc"])).
Proof.
  exact (walk_stops_at_first_failure Rook.Rel "proj"
           (λ q, String.substring (String.length "proj" + 1) (String.length q) q)
           [("proj", Some true); ("proj/lib.inc", Some false)]
           "elsewhere/notes.txt" [("proj/main.pwn", Some false)] ([], [])
           (Errorf "Rel: can't make elsewhere/notes.txt relative to proj")
           (tree_infos [("proj", Some true); ("proj/lib.inc", Some false)] eq_refl)
           (tree_rel "proj" [("proj", Some true); ("proj/lib.inc", Some false)] eq_refl)
           eq_refl).
Defined.

Lemma entry_question_follows_the_walk_witness :
  ∃ pwnFiles incFiles,
    Rook.Walk Rook.Rel "proj" Rook.sampleTree ([], []) = Done (None, (pwnFiles, incFiles)) ∧
    let question := Rook.entryQuestion pwnFiles incFiles in
    (Rook.Ask question = Rook.Select pwnFiles ↔ Rook.picked ".pwn" Rook.sampleTree ≠ []) ∧
    (Rook.Name question = "EntryGenerate" ↔
       Rook.picked ".pwn" Rook.sampleTree = [] ∧ Rook.picked ".inc" Rook.sampleTree ≠ []) ∧
    (Rook.Required question = false ↔
       Rook.picked ".pwn" Rook.sampleTree = [] ∧ Rook.picked ".inc" Rook.sampleTree = []).
Proof.
  exact (entry_question_follows_the_walk Rook.Rel "proj"
           (λ q, String.substring (String.length "proj" + 1) (String.length q) q)
           Rook.sampleTree
           (tree_infos Rook.sampleTree eq_refl)
           (tree_rel "proj" Rook.sampleTree eq_refl)).
Defined.

Lemma existing_target_is_never_written_witness :
  "init-proj/README.md" = "init-" +:+ Rook.filepath_Join (Rook.web false false) "proj" "README.md" ∧
  "init-proj/README.md" ≠ Rook.filepath_Join (Rook.web false false) "proj" "README.md".
Proof.
  refine (existing_target_is_never_written (Rook.web false false) "proj" "README.md"
            ({["proj/README.md"]} : gset string) ({["proj/README.md"]} : gset string)
            (Rook.CCreate "init-proj/README.md" None) "init-proj/README.md"
            eq_refl _ _ eq_refl).
  - vm_compute; reflexivity.
  - apply (list_elem_of_lookup_2 _ 3). vm_compute; reflexivity.
Defined.

(** A full disk: the copy fails, the file is closed without error, and
    [getTemplateFile] returns no error. *)
Example copy_error_is_lost :
  let run := Rook.getTemplateFile (Rook.web false true) "proj" "README.md" (∅ : gset string) in
  run.1.1 = None ∧
  run.2 !! 4 = Some (Rook.CCopy "proj/README.md"
                                (Some (Errorf "write: no space left on device"))) ∧
  run.2 !! 5 = Some (Rook.CClose "proj/README.md" None).
Proof. vm_compute. by repeat split. Qed.

Lemma close_result_is_returned_witness :
  (Rook.getTemplateFile (Rook.web false true) "proj" "README.md" (∅ : gset string)).1.1 = None.
Proof.
  pose proof (close_result_is_returned (Rook.web false true) "proj" "README.md"
                (∅ : gset string)) as T.
  assert ((Rook.getTemplateFile (Rook.web false true) "proj" "README.md"
             (∅ : gset string)).2 !! 5 = Some (Rook.CClose "proj/README.md" None)) as Hclose
    by (vm_compute; reflexivity).
  revert T Hclose.
  generalize (Rook.getTemplateFile (Rook.web false true) "proj" "README.md" (∅ : gset string)).
  intros [[res d'] calls] [T _] Hclose.
  exact (T _ _ (list_elem_of_lookup_2 _ _ _ Hclose)).
Defined.

(** The network down: the request fails and nothing else is called. *)
Example request_failure_calls_nothing_else :
  let run := Rook.getTemplateFile (Rook.web true false) "proj" ".gitignore" (∅ : gset string) in
  run.1.1 = Some (Errorf "dial tcp: network is unreachable") ∧ length run.2 = 1.
Proof. vm_compute. by split. Qed.

(** ** The network stage on hosts that fail *)

Lemma mkdir_failure_stops_network_stage_witness :
  ∃ e,
    (CompilerFromNet Strict.readOnly Sim.cacheDir "3.10.4" "/opt/pawn"
       (Sim.start Strict.readOnly Sim.emptyDisk)).1.1
    = Done (Some (Wrap e ("failed to create dir " +:+ "/opt/pawn"))).
Proof.
  pose proof (mkdir_failure_stops_network_stage Strict.readOnly Sim.cacheDir "3.10.4"
                "/opt/pawn" (Sim.start Strict.readOnly Sim.emptyDisk)) as T.
  assert (match last (CompilerFromNet Strict.readOnly Sim.cacheDir "3.10.4" "/opt/pawn"
                        (Sim.start Strict.readOnly Sim.emptyDisk)).2 with
          | Some (EvMkdirAll path (Some _)) => String.eqb path "/opt/pawn"
          | _ => false
          end = true) as Hlast by (vm_compute; reflexivity).
  revert T Hlast.
  generalize (CompilerFromNet Strict.readOnly Sim.cacheDir "3.10.4" "/opt/pawn"
                (Sim.start Strict.readOnly Sim.emptyDisk)).
  intros [[res s'] evs] T Hlast. cbn [fst snd] in *.
  destruct (last evs) as [ev|] eqn:Elast; [|discriminate Hlast].
  apply last_Some in Elast as [pre ->].
  destruct ev as [| | | |path [e|]| | |]; try discriminate Hlast.
  apply String.eqb_eq in Hlast as ->. exists e.
  destruct (T pre _ _ [] eq_refl) as (_ & _ & [[_ Hres]|[Hpath _]]);
    [exact Hres|discriminate Hpath].
Defined.

Lemma extraction_decides_network_stage_witness :
  ∃ e path,
    (CompilerFromNet Strict.badArchive Sim.cacheDir "3.10.4" "/opt/pawn"
       (Sim.start Strict.badArchive Sim.emptyDisk)).1.1
    = Done (Some (Wrap e ("failed to unzip package " +:+ path))).
Proof.
  pose proof (extraction_decides_network_stage Strict.badArchive Sim.cacheDir "3.10.4"
                "/opt/pawn" (Sim.start Strict.badArchive Sim.emptyDisk)) as T.
  assert (match last (CompilerFromNet Strict.badArchive Sim.cacheDir "3.10.4" "/opt/pawn"
                        (Sim.start Strict.badArchive Sim.emptyDisk)).2 with
          | Some ev => isExtract ev && negb (isCleanExtract ev)
          | None => false
          end = true) as Hlast by (vm_compute; reflexivity).
  revert T Hlast.
  generalize (CompilerFromNet Strict.badArchive Sim.cacheDir "3.10.4" "/opt/pawn"
                (Sim.start Strict.badArchive Sim.emptyDisk)).
  intros [[res s'] evs] T Hlast. cbn [fst snd] in *.
  destruct (last evs) as [ev|] eqn:Elast; [|discriminate Hlast].
  apply last_Some in Elast as [pre ->].
  destruct ev; try discriminate Hlast.
  match goal with
  | _ : context [isCleanExtract (EvExtract _ _ _ _ ?err)] |- _ =>
      destruct err as [e|]; [|discriminate Hlast]
  end.
  eexists _, _. exact (T pre _ _ _ _ _ [] eq_refl).
Defined.
